(** * Crazy Eights: the React client and the rules engine

  A shallow embedding of the TypeScript client of the Crazy Eights card
  table (GameBoard.tsx, WaitingRoom.tsx, App.tsx) and of the rules engine
  the specification describes, followed by the properties proved about
  them.

  JavaScript strings are sequences of UTF-16 code units; they are modelled
  as [list N], one number per code unit, so that [length] is the
  JavaScript [length] and the string methods can be written out. *)

From Stdlib Require Import List NArith Bool Arith Lia Permutation.
From Stdlib Require String Ascii.
Import ListNotations.
Import String.StringSyntax.
Delimit Scope string_scope with string.

Set Implicit Arguments.

(* ================================================================== *)
(** ** JavaScript strings *)
(* ================================================================== *)

Module JsString.

Definition jsstring := list N.

(** An ASCII literal as a JavaScript string. *)
Definition lit (s : String.string) : jsstring :=
  map Ascii.N_of_ascii (String.list_ascii_of_string s).

(** [a === b] on two strings. *)
Fixpoint eqb (a b : jsstring) : bool :=
  match a, b with
  | [], [] => true
  | x :: a', y :: b' => N.eqb x y && eqb a' b'
  | _, _ => false
  end.

(** [s.startsWith(pat)]. *)
Fixpoint startsWith (s pat : jsstring) : bool :=
  match pat, s with
  | [], _ => true
  | p :: pat', c :: s' => N.eqb p c && startsWith s' pat'
  | _ :: _, [] => false
  end.

(** [s.includes(pat)]: [pat] occurs in [s] at some index. *)
Fixpoint includes (s pat : jsstring) : bool :=
  startsWith s pat ||
  match s with
  | [] => false
  | _ :: s' => includes s' pat
  end.

(** [s.replace(pat, rep)] with a string pattern: the first occurrence of
    [pat] is replaced, the empty pattern matches at index 0. *)
Fixpoint replace (s pat rep : jsstring) : jsstring :=
  if startsWith s pat then rep ++ skipn (length pat) s
  else match s with
       | [] => []
       | c :: s' => c :: replace s' pat rep
       end.

(** Truthiness of a value that is a string or null/undefined. *)
Definition truthy (v : option jsstring) : bool :=
  match v with
  | Some (_ :: _) => true
  | _ => false
  end.

(** [v === s] for [v] a string or null/undefined and [s] a string. *)
Definition strict_eq (v : option jsstring) (s : jsstring) : bool :=
  match v with
  | Some t => eqb t s
  | None => false
  end.

End JsString.

(* ================================================================== *)
(** ** The view the server sends and the update envelope *)
(* ================================================================== *)

Module Wire.
Import JsString.

Record PlayerInfo := {
  id : jsstring;
  name : jsstring;
  hand_size : option nat
}.

(** The state object as the client reads it ([any] in the source): every
    property may be missing. *)
Record View := {
  players : option (list PlayerInfo);
  your_hand : option (list jsstring);
  top_card : option jsstring;
  active_suit : option jsstring;
  current_player_id : option jsstring;
  winner_id : option jsstring
}.

(** The object [{}]. *)
Definition emptyView : View :=
  {| players := None; your_hand := None; top_card := None;
     active_suit := None; current_player_id := None; winner_id := None |}.

(** [update.data]: an object that may carry a [player_state], a
    [game_state], and properties of its own. *)
Record Payload := {
  player_state : option View;
  game_state : option View;
  own : View
}.

Definition emptyPayload : Payload :=
  {| player_state := None; game_state := None; own := emptyView |}.

(** [interface GameUpdate { type: string; data: any }]. *)
Record GameUpdate := {
  type : jsstring;
  data : option Payload
}.

End Wire.

(* ================================================================== *)
(** ** Requests the client sends to the backend *)
(* ================================================================== *)

Module Http.
Import JsString Wire.

(** Body of [POST /games/{id}/play]. *)
Record PlayBody := {
  card : jsstring;
  declared_suit : option jsstring
}.

Inductive Request :=
| GetState (gameId playerId : jsstring)
| PostJoin (gameId name : jsstring)
| PostStart (gameId : jsstring)
| PostPlay (gameId playerId : jsstring) (body : PlayBody)
| PostDraw (gameId playerId : jsstring).

(** What the client does besides updating its own state. *)
Inductive Effect :=
| Fetch (r : Request)
| Alert (msg : jsstring)
| ConsoleError (msg : jsstring).

(** A parsed response body: the [detail] of an error and the properties
    of a state object. *)
Record JsonBody := {
  detail : option jsstring;
  view : View
}.

(** How a [fetch] ends: the promise rejects, or a response arrives whose
    [json()] may itself reject ([None]). *)
Inductive FetchResult :=
| NetworkError
| Response (ok : bool) (json : option JsonBody).

(** [v || dflt] for a string-or-undefined [v]. *)
Definition orElse (v : option jsstring) (dflt : jsstring) : jsstring :=
  match v with
  | Some (c :: r) => c :: r
  | _ => dflt
  end.

Definition isPlay (e : Effect) : bool :=
  match e with Fetch (PostPlay _ _ _) => true | _ => false end.
Definition isDraw (e : Effect) : bool :=
  match e with Fetch (PostDraw _ _) => true | _ => false end.
Definition isStart (e : Effect) : bool :=
  match e with Fetch (PostStart _) => true | _ => false end.

End Http.

(* ================================================================== *)
(** ** GameBoard.tsx *)
(* ================================================================== *)

Module GameBoard.
Import JsString Http Wire.

Record Card := {
  suit : jsstring;
  rank : jsstring
}.

(** The [suits] table of [parseCard], as the source file stores it.  Each
    entry is three UTF-16 code units: U+201A U+00F4 followed by U+2022,
    U+00B6, U+00A3 and U+2020. *)
Definition suits : list jsstring :=
  [ [8218; 244; 8226]; [8218; 244; 182]; [8218; 244; 163];
    [8218; 244; 8224] ]%N.

Definition parseCard (cardStr : jsstring) : Card :=
  if negb (truthy (Some cardStr)) || (length cardStr <? 2) then
    {| rank := []; suit := [] |}
  else
    let suit := match find (fun s => includes cardStr s) suits with
                | Some s => s
                | None => []
                end in
    let rank := replace cardStr suit [] in
    {| rank := rank; suit := suit |}.

Definition parseHand (cards : list jsstring) : list Card :=
  map parseCard cards.

Definition cardsEqual (a b : option Card) : bool :=
  match a, b with
  | Some a, Some b => eqb (rank a) (rank b) && eqb (suit a) (suit b)
  | _, _ => false
  end.

Record Props := {
  gameId : jsstring;
  playerId : jsstring
}.

(** The component's React state. *)
Record State := {
  gameState : option View;
  hand : list Card;
  selectedCard : option Card;
  declaredSuit : option jsstring;
  loading : bool
}.

Definition initialState : State :=
  {| gameState := None; hand := []; selectedCard := None;
     declaredSuit := None; loading := true |}.

(** [playerState || data.game_state || data]: objects are truthy, so
    the first one present wins. *)
Definition boardStateOf (d : Payload) : View :=
  match player_state d with
  | Some v => v
  | None => match game_state d with
            | Some v => v
            | None => own d
            end
  end.

(** [playerState?.your_hand || boardState.your_hand || []]: an array is
    truthy even when empty. *)
Definition handSourceOf (d : Payload) : list jsstring :=
  let fromPlayer := match player_state d with
                    | Some v => your_hand v
                    | None => None
                    end in
  match fromPlayer with
  | Some h => h
  | None => match your_hand (boardStateOf d) with
            | Some h => h
            | None => []
            end
  end.

(** [ws.onmessage], from the parsed message on.  [data] is an object, so
    [boardState] is one too and the test [if (boardState)] always passes. *)
Definition onmessage (st : State) (update : GameUpdate) : State :=
  let data := match Wire.data update with
              | Some d => d
              | None => emptyPayload
              end in
  let boardState := boardStateOf data in
  {| gameState := Some boardState;
     hand := parseHand (handSourceOf data);
     selectedCard := selectedCard st;
     declaredSuit := declaredSuit st;
     loading := false |}.

Definition canPlayCard (gameState : option View) (card : Card) : bool :=
  match gameState with
  | None => false
  | Some g =>
      if eqb (rank card) (lit "8"%string) then true
      else if truthy (active_suit g) then strict_eq (active_suit g) (suit card)
      else if negb (truthy (top_card g)) then false
      else
        let topCard := parseCard (match top_card g with
                                  | Some s => s
                                  | None => []
                                  end) in
        eqb (suit card) (suit topCard) || eqb (rank card) (rank topCard)
  end.

Definition clearSelection (st : State) : State :=
  {| gameState := gameState st; hand := hand st; selectedCard := None;
     declaredSuit := None; loading := loading st |}.

(** The body [handlePlayCard] posts for the selected card. *)
Definition playBody (sel : Card) (declared : option jsstring) : PlayBody :=
  let isEight := eqb (rank sel) (lit "8"%string) in
  {| card := rank sel ++ suit sel;
     declared_suit := if isEight then declared else None |}.

(** [handlePlayCard]; [res] is how the [fetch] it awaits ends. *)
Definition handlePlayCard (props : Props) (st : State) (res : FetchResult)
  : State * list Effect :=
  match selectedCard st, gameState st with
  | Some sel, Some _ =>
      let req := Fetch (PostPlay (gameId props) (playerId props)
                          (playBody sel (declaredSuit st))) in
      match res with
      | NetworkError =>
          (st, [req; ConsoleError (lit "Failed to play card:"%string);
                Alert (lit "Failed to play card"%string)])
      | Response false body =>
          let error := match body with Some b => detail b | None => None end in
          (st, [req; Alert (orElse error (lit "Failed to play card"%string))])
      | Response true _ => (clearSelection st, [req])
      end
  | _, _ => (st, [])
  end.

Definition handleDrawCard (props : Props) (st : State) (res : FetchResult)
  : State * list Effect :=
  let req := Fetch (PostDraw (gameId props) (playerId props)) in
  match res with
  | NetworkError =>
      (st, [req; ConsoleError (lit "Failed to draw card:"%string);
            Alert (lit "Failed to draw card"%string)])
  | Response false body =>
      let error := match body with Some b => detail b | None => None end in
      (st, [req; Alert (orElse error (lit "Failed to draw card"%string))])
  | Response true _ => (st, [req])
  end.

(** *** What the component renders *)

Inductive Handler := HandleDrawCard | HandlePlayCard.

(** The [actions] block: the suit selector with its Play 8 button, or the
    Play Card button. *)
Inductive Actions :=
| SuitSelector (value : jsstring) (play8_onClick : Handler)
               (play8_disabled : bool)
| PlayCardButton (onClick : Handler).

Record CardView := {
  face : Card;
  selected : bool;
  can_play : bool
}.

Record Board := {
  topCard : option Card;
  deck_onClick : option Handler;
  cards : list CardView;
  actions : option Actions
}.

Inductive Screen :=
| LoadingScreen
| ErrorScreen
| BoardScreen (b : Board).

Definition isCurrentPlayer (props : Props) (g : View) : bool :=
  strict_eq (current_player_id g) (playerId props).

Definition render (props : Props) (st : State) : Screen :=
  if loading st then LoadingScreen
  else match gameState st with
       | None => ErrorScreen
       | Some g =>
           let isCurrent := isCurrentPlayer props g in
           BoardScreen
             {| topCard := if truthy (top_card g)
                           then option_map parseCard (top_card g)
                           else None;
                deck_onClick := if isCurrent then Some HandleDrawCard
                                else None;
                cards := map (fun card =>
                                {| face := card;
                                   selected := cardsEqual (selectedCard st)
                                                          (Some card);
                                   can_play := canPlayCard (gameState st)
                                                           card |})
                             (hand st);
                actions :=
                  if isCurrent then
                    match selectedCard st with
                    | Some sel =>
                        Some (if eqb (rank sel) (lit "8"%string)
                              then SuitSelector
                                     (orElse (declaredSuit st) [])
                                     HandlePlayCard
                                     (negb (truthy (declaredSuit st)))
                              else PlayCardButton HandlePlayCard)
                    | None => None
                    end
                  else None |}
       end.

(** *** What the user can do on the rendered board *)

Inductive Event :=
| ClickDeck
| ClickCard (idx : nat)
| ChangeSuit (value : jsstring)
| ClickPlay8
| ClickPlayCard.

Definition runHandler (h : Handler) (props : Props) (st : State)
           (res : FetchResult) : State * list Effect :=
  match h with
  | HandleDrawCard => handleDrawCard props st res
  | HandlePlayCard => handlePlayCard props st res
  end.

Definition toggleSelected (st : State) (card : Card) : State :=
  {| gameState := gameState st; hand := hand st;
     selectedCard := if cardsEqual (selectedCard st) (Some card)
                     then None else Some card;
     declaredSuit := declaredSuit st; loading := loading st |}.

Definition setDeclaredSuit (st : State) (v : option jsstring) : State :=
  {| gameState := gameState st; hand := hand st;
     selectedCard := selectedCard st;
     declaredSuit := v; loading := loading st |}.

(** An event reaches a handler only through an element that is rendered,
    has the handler attached and is not disabled. *)
Definition dispatch (props : Props) (st : State) (ev : Event)
           (res : FetchResult) : State * list Effect :=
  match render props st with
  | BoardScreen b =>
      match ev with
      | ClickDeck =>
          match deck_onClick b with
          | Some h => runHandler h props st res
          | None => (st, [])
          end
      | ClickCard idx =>
          match nth_error (cards b) idx with
          | Some cv => (toggleSelected st (face cv), [])
          | None => (st, [])
          end
      | ChangeSuit v =>
          match actions b with
          | Some (SuitSelector _ _ _) => (setDeclaredSuit st (Some v), [])
          | _ => (st, [])
          end
      | ClickPlay8 =>
          match actions b with
          | Some (SuitSelector _ h false) => runHandler h props st res
          | _ => (st, [])
          end
      | ClickPlayCard =>
          match actions b with
          | Some (PlayCardButton h) => runHandler h props st res
          | _ => (st, [])
          end
      end
  | _ => (st, [])
  end.

End GameBoard.

(* ================================================================== *)
(** ** WaitingRoom.tsx *)
(* ================================================================== *)

Module WaitingRoom.
Import JsString Wire Http.

Record State := {
  players : list PlayerInfo;
  loading : bool
}.

Definition initialState : State := {| players := []; loading := true |}.

(** [data.player_state || data.game_state || data]. *)
Definition boardStateOf (d : Payload) : View :=
  match player_state d with
  | Some v => v
  | None => match game_state d with
            | Some v => v
            | None => own d
            end
  end.

(** [ws.onmessage], from the parsed message on. *)
Definition onmessage (st : State) (update : GameUpdate) : State :=
  let data := match Wire.data update with
              | Some d => d
              | None => emptyPayload
              end in
  let boardState := boardStateOf data in
  match Wire.players boardState with
  | Some ps => {| players := ps; loading := loading st |}
  | None => st
  end.

Definition isReady (st : State) : bool := length (players st) =? 2.

Inductive Handler := OnStartGame.

Record Room := {
  listed : list PlayerInfo;
  waiting_notice : bool;
  start_button : option Handler
}.

Inductive Screen :=
| LoadingScreen
| RoomScreen (r : Room).

Definition render (st : State) : Screen :=
  if loading st then LoadingScreen
  else RoomScreen
         {| listed := players st;
            waiting_notice := length (players st) <? 2;
            start_button := if isReady st then Some OnStartGame else None |}.

End WaitingRoom.

(* ================================================================== *)
(** ** App.tsx *)
(* ================================================================== *)

Module App.
Import JsString Wire Http.

Inductive GamePhase := lobby | waiting | playing | finished.

Record GameState := {
  gameId : jsstring;
  playerId : jsstring;
  playerName : jsstring;
  phase : GamePhase
}.

Definition setPhase (gs : GameState) (p : GamePhase) : GameState :=
  {| gameId := gameId gs; playerId := playerId gs;
     playerName := playerName gs; phase := p |}.

(** [!stateData.players || stateData.players.length < 2]. *)
Definition tooFewPlayers (stateData : JsonBody) : bool :=
  match Wire.players (view stateData) with
  | None => true
  | Some ps => length ps <? 2
  end.

Definition failed (gs : GameState) (sent : list Effect)
  : option GameState * list Effect :=
  (Some gs, sent ++ [ConsoleError (lit "Failed to start game:"%string);
                     Alert (lit "Failed to start game"%string)]).

(** [handleStartGame]; [stateResp] and [startResp] are how the two
    [fetch] calls it awaits end. *)
Definition handleStartGame (gameState : option GameState)
           (stateResp startResp : FetchResult)
  : option GameState * list Effect :=
  match gameState with
  | None => (None, [])
  | Some gs =>
      let read := Fetch (GetState (gameId gs) (playerId gs)) in
      match stateResp with
      | NetworkError => failed gs [read]
      | Response false None => failed gs [read]
      | Response false (Some err) =>
          (Some gs,
           [read;
            Alert (lit "Cannot start: "%string
                   ++ orElse (detail err)
                             (lit "failed to read game state"%string))])
      | Response true None => failed gs [read]
      | Response true (Some stateData) =>
          if tooFewPlayers stateData then
            (Some gs,
             [read;
              Alert (lit "Need 2 players to start the game. Waiting for the other player."%string)])
          else
            let start := Fetch (PostStart (gameId gs)) in
            match startResp with
            | NetworkError => failed gs [read; start]
            | Response false None => failed gs [read; start]
            | Response false (Some error) =>
                (Some gs,
                 [read; start;
                  ConsoleError (lit "Start game error:"%string);
                  Alert (lit "Cannot start game: "%string
                         ++ orElse (detail error)
                                   (lit "Unknown error"%string))])
            | Response true _ => (Some (setPhase gs playing), [read; start])
            end
      end
  end.

Inductive Page := LobbyPage | WaitingRoomPage | GameBoardPage | GameOverPage.

Definition render (gameState : option GameState) : Page :=
  match gameState with
  | None => LobbyPage
  | Some gs =>
      match phase gs with
      | waiting => WaitingRoomPage
      | playing => GameBoardPage
      | _ => GameOverPage
      end
  end.

End App.

(* ================================================================== *)
(** ** The rules engine *)
(* ================================================================== *)

Module Engine.

(** The backend's game module is not among the client sources: this
    module follows sections 3, 4.1 and 4.2 of the specification.
    Randomness is an explicit [seed] argument, and a failing operation
    returns its error together with the game as the operation left it. *)

(** Modelled from the spec: the ranks A, 2..10, J, Q, K of a Card (the
    engine's card type is missing). *)
Inductive Rank :=
| RA | R2 | R3 | R4 | R5 | R6 | R7 | R8 | R9 | R10 | RJ | RQ | RK.

(** Modelled from the spec: the four suits of a Card. *)
Inductive Suit := Hearts | Diamonds | Clubs | Spades.

(** Modelled from the spec: Card, an immutable value with a rank and a
    suit. *)
Record Card := {
  rank : Rank;
  suit : Suit
}.

Definition Rank_eq_dec (a b : Rank) : {a = b} + {a <> b}.
Proof. decide equality. Defined.

Definition Suit_eq_dec (a b : Suit) : {a = b} + {a <> b}.
Proof. decide equality. Defined.

Definition rankEqb (a b : Rank) : bool :=
  if Rank_eq_dec a b then true else false.

Definition suitEqb (a b : Suit) : bool :=
  if Suit_eq_dec a b then true else false.

(** Modelled from the spec: card equality, by (rank, suit). *)
Definition cardEqb (a b : Card) : bool :=
  rankEqb (rank a) (rank b) && suitEqb (suit a) (suit b).

Definition allRanks : list Rank :=
  [RA; R2; R3; R4; R5; R6; R7; R8; R9; R10; RJ; RQ; RK].

Definition allSuits : list Suit := [Hearts; Diamonds; Clubs; Spades].

(** Modelled from the spec: the 52-card deck, before shuffling. *)
Definition fullDeck : list Card :=
  flat_map (fun s => map (fun r => {| rank := r; suit := s |}) allRanks)
           allSuits.

(** *** Deck *)

Definition insertAt (k : nat) (c : Card) (l : list Card) : list Card :=
  firstn k l ++ c :: skipn k l.

(** Modelled from the spec: the shuffle behind newShuffledDeck and the
    reshuffle, a pseudo-random order of [l] driven by [seed]. *)
Fixpoint shuffle (seed : list nat) (l : list Card) : list Card :=
  match l with
  | [] => []
  | c :: l' =>
      insertAt (hd 0 seed mod S (length l')) c (shuffle (tl seed) l')
  end.

(** Modelled from the spec: newShuffledDeck, all 52 cards in
    pseudo-random order. *)
Definition newShuffledDeck (seed : list nat) : list Card :=
  shuffle seed fullDeck.

(** Modelled from the spec: draw(n) of the deck, [n] cards from the front
    and the rest, or nothing when fewer than [n] remain. *)
Definition draw (n : nat) (deck : list Card)
  : option (list Card * list Card) :=
  if length deck <? n then None
  else Some (firstn n deck, skipn n deck).

(** *** Game *)

(** Modelled from the spec: the lifecycle states of a Game. *)
Inductive GameStatus := WAITING | ACTIVE | FINISHED.

(** Modelled from the spec: Player, with its id, name and hand. *)
Record Player := {
  id : nat;
  name : String.string;
  hand : list Card
}.

(** Modelled from the spec: Game, the aggregate root of section 3. *)
Record Game := {
  gid : nat;
  players : list Player;
  drawPile : list Card;
  discardPile : list Card;
  activeSuit : option Suit;
  currentPlayerIndex : nat;
  state : GameStatus;
  winnerId : option nat
}.

(** Modelled from the spec: the error kinds of section 7. *)
Inductive Error :=
| GameNotFound | GameFull | InvalidState | NotEnoughPlayers
| PlayerNotInGame | NotYourTurn | CardNotInHand | MissingDeclaredSuit
| IllegalMove | DeckExhausted.

Definition isWaiting (s : GameStatus) : bool :=
  match s with WAITING => true | _ => false end.

Definition isActive (s : GameStatus) : bool :=
  match s with ACTIVE => true | _ => false end.

(** Modelled from the spec: the Game Directory's create(), an empty game
    in WAITING. *)
Definition createGame (g : nat) : Game :=
  {| gid := g; players := []; drawPile := []; discardPile := [];
     activeSuit := None; currentPlayerIndex := 0; state := WAITING;
     winnerId := None |}.

(** Modelled from the spec: the top card, the last element of the discard
    pile. *)
Definition topCard (g : Game) : option Card :=
  match discardPile g with
  | [] => None
  | c :: r => Some (last r c)
  end.

(** Modelled from the spec: the player at [currentPlayerIndex]. *)
Definition currentPlayer (g : Game) : option Player :=
  nth_error (players g) (currentPlayerIndex g).

Definition currentPlayerId (g : Game) : option nat :=
  option_map id (currentPlayer g).

Definition handTotal (ps : list Player) : nat :=
  list_sum (map (fun p => length (hand p)) ps).

(** Modelled from the spec: the conserved quantity of section 3,
    |drawPile| + |discardPile| + the sum of the hand sizes. *)
Definition cardCount (g : Game) : nat :=
  length (drawPile g) + length (discardPile g) + handTotal (players g).

(** *** Operations: a state monad with errors *)

Inductive Outcome (A : Type) :=
| Ok (a : A)
| Err (e : Error).
Arguments Ok {A} a.
Arguments Err {A} e.

Definition M (A : Type) : Type := Game -> Game * Outcome A.

Definition ret {A} (a : A) : M A := fun g => (g, Ok a).

Definition bind {A B} (m : M A) (k : A -> M B) : M B :=
  fun g => match m g with
           | (g', Ok a) => k a g'
           | (g', Err e) => (g', Err e)
           end.

Definition fail {A} (e : Error) : M A := fun g => (g, Err e).
Definition get : M Game := fun g => (g, Ok g).
Definition put (g' : Game) : M unit := fun _ => (g', Ok tt).

Definition guard (b : bool) (e : Error) : M unit :=
  if b then ret tt else fail e.

Declare Scope engine_scope.
Delimit Scope engine_scope with engine.
Notation "x <- m ;; k" := (bind m (fun x => k))
  (at level 61, m at next level, right associativity) : engine_scope.
Notation "m ;; k" := (bind m (fun _ => k))
  (at level 61, right associativity) : engine_scope.
Local Open Scope engine_scope.

(** Modelled from the spec: a fresh player id, one that no seated player
    has. *)
Definition freshId (ps : list Player) : nat :=
  S (list_max (map id ps)).

(** Modelled from the spec: join(name), allowed only in WAITING and only
    while fewer than two players are seated. *)
Definition join (nm : String.string) : M nat :=
  g <- get ;;
  guard (isWaiting (state g)) InvalidState ;;
  guard (length (players g) <? 2) GameFull ;;
  let pid := freshId (players g) in
  put {| gid := gid g;
         players := players g ++ [{| id := pid; name := nm; hand := [] |}];
         drawPile := drawPile g; discardPile := discardPile g;
         activeSuit := activeSuit g;
         currentPlayerIndex := currentPlayerIndex g;
         state := state g; winnerId := winnerId g |} ;;
  ret pid.

(** Modelled from the spec: the deal of start(), [n] cards to each player
    in join order. *)
Fixpoint deal (n : nat) (ps : list Player) (deck : list Card)
  : option (list Player * list Card) :=
  match ps with
  | [] => Some ([], deck)
  | p :: ps' =>
      match draw n deck with
      | None => None
      | Some (cs, deck') =>
          match deal n ps' deck' with
          | None => None
          | Some (ps'', deck'') =>
              Some ({| id := id p; name := name p; hand := hand p ++ cs |}
                      :: ps'', deck'')
          end
      end
  end.

(** Modelled from the spec: start(), which deals from WAITING with two
    players seated, fails with NotEnoughPlayers with fewer, and returns
    the game unchanged once it has started. *)
Definition start (seed : list nat) : M unit :=
  g <- get ;;
  if isWaiting (state g) then
    guard (2 <=? length (players g)) NotEnoughPlayers ;;
    match deal 7 (players g) (newShuffledDeck seed) with
    | Some (ps, top :: rest) =>
        put {| gid := gid g; players := ps; drawPile := rest;
               discardPile := [top]; activeSuit := None;
               currentPlayerIndex := 0; state := ACTIVE;
               winnerId := winnerId g |}
    | _ => fail DeckExhausted
    end
  else ret tt.

(** Modelled from the spec: whether [c] is present in the hand [h]. *)
Definition hasCard (c : Card) (h : list Card) : bool :=
  existsb (cardEqb c) h.

(** Modelled from the spec: remove the card from the hand (one copy). *)
Fixpoint removeCard (c : Card) (h : list Card) : list Card :=
  match h with
  | [] => []
  | x :: h' => if cardEqb c x then h' else x :: removeCard c h'
  end.

(** Modelled from the spec: give the player at index [i] the hand
    [h]. *)
Fixpoint setHand (i : nat) (h : list Card) (ps : list Player)
  : list Player :=
  match ps with
  | [] => []
  | p :: ps' =>
      match i with
      | 0 => {| id := id p; name := name p; hand := h |} :: ps'
      | S i' => p :: setHand i' h ps'
      end
  end.

(** Modelled from the spec: the next player, modulo the player count. *)
Definition nextIndex (g : Game) : nat :=
  (currentPlayerIndex g + 1) mod length (players g).

(** Modelled from the spec: the checks common to play and drawCard, the
    game is ACTIVE (InvalidState otherwise) and it is [playerId]'s turn
    (NotYourTurn otherwise). *)
Definition turnOf (playerId : nat) : M Player :=
  g <- get ;;
  guard (isActive (state g)) InvalidState ;;
  match currentPlayer g with
  | Some p => guard (id p =? playerId) NotYourTurn ;; ret p
  | None => fail NotYourTurn
  end.

(** Modelled from the spec: the legality check of play, in order; it
    yields the active suit after the play. *)
Definition legality (g : Game) (card : Card) (declaredSuit : option Suit)
  : M (option Suit) :=
  if rankEqb (rank card) R8 then
    match declaredSuit with
    | Some s => ret (Some s)
    | None => fail MissingDeclaredSuit
    end
  else
    match activeSuit g with
    | Some a => guard (suitEqb (suit card) a) IllegalMove ;; ret None
    | None =>
        match topCard g with
        | Some t =>
            guard (suitEqb (suit card) (suit t)
                   || rankEqb (rank card) (rank t)) IllegalMove ;;
            ret None
        | None => fail IllegalMove
        end
    end.

(** Modelled from the spec: play(playerId, card, declaredSuit?). *)
Definition play (playerId : nat) (card : Card) (declaredSuit : option Suit)
  : M unit :=
  p <- turnOf playerId ;;
  g <- get ;;
  guard (hasCard card (hand p)) CardNotInHand ;;
  newSuit <- legality g card declaredSuit ;;
  let hand' := removeCard card (hand p) in
  let ps := setHand (currentPlayerIndex g) hand' (players g) in
  match hand' with
  | [] =>
      put {| gid := gid g; players := ps; drawPile := drawPile g;
             discardPile := discardPile g ++ [card];
             activeSuit := newSuit;
             currentPlayerIndex := currentPlayerIndex g;
             state := FINISHED; winnerId := Some playerId |}
  | _ :: _ =>
      put {| gid := gid g; players := ps; drawPile := drawPile g;
             discardPile := discardPile g ++ [card];
             activeSuit := newSuit;
             currentPlayerIndex := nextIndex g;
             state := state g; winnerId := winnerId g |}
  end.

(** Modelled from the spec: the reshuffle of drawCard; with an empty draw
    pile, all but the top card of the discard pile becomes a fresh draw
    pile, and DeckExhausted if that leaves no card to draw. *)
Definition replenish (seed : list nat) : M unit :=
  g <- get ;;
  match drawPile g with
  | _ :: _ => ret tt
  | [] =>
      match removelast (discardPile g), topCard g with
      | c :: rest, Some top =>
          put {| gid := gid g; players := players g;
                 drawPile := shuffle seed (c :: rest);
                 discardPile := [top];
                 activeSuit := activeSuit g;
                 currentPlayerIndex := currentPlayerIndex g;
                 state := state g; winnerId := winnerId g |}
      | _, _ => fail DeckExhausted
      end
  end.

(** Modelled from the spec: drawCard(playerId), one card from the draw
    pile to the current player's hand, then the turn advances. *)
Definition drawCard (playerId : nat) (seed : list nat) : M unit :=
  p <- turnOf playerId ;;
  replenish seed ;;
  g <- get ;;
  match drawPile g with
  | c :: rest =>
      put {| gid := gid g;
             players := setHand (currentPlayerIndex g) (hand p ++ [c])
                                (players g);
             drawPile := rest; discardPile := discardPile g;
             activeSuit := activeSuit g;
             currentPlayerIndex := nextIndex g;
             state := state g; winnerId := winnerId g |}
  | [] => fail DeckExhausted
  end.

(** *** Commands and reachable games *)

Inductive Command :=
| Join (nm : String.string)
| Start (seed : list nat)
| Play (playerId : nat) (card : Card) (declaredSuit : option Suit)
| DrawCard (playerId : nat) (seed : list nat).

Definition exec (c : Command) (g : Game) : Game :=
  match c with
  | Join nm => fst (join nm g)
  | Start seed => fst (start seed g)
  | Play pid card ds => fst (play pid card ds g)
  | DrawCard pid seed => fst (drawCard pid seed g)
  end.

Definition execAll (cs : list Command) (g : Game) : Game :=
  fold_left (fun g c => exec c g) cs g.

End Engine.

(* ================================================================== *)
(** ** Vocabulary of the statements *)
(* ================================================================== *)

Module Statements.
Import JsString Wire Http.

(** The thirteen ranks of the wire format. *)
Definition wireRanks : list jsstring :=
  map lit ["A"; "2"; "3"; "4"; "5"; "6"; "7"; "8"; "9"; "10"; "J"; "Q";
           "K"]%string.

(** The four suit characters U+2665, U+2666, U+2663 and U+2660 in which
    the project's API reference writes cards. *)
Definition unicodeSuits : list jsstring :=
  [[9829]; [9830]; [9827]; [9824]]%N.

(** The card string [handlePlayCard] sends: rank, then suit. *)
Definition wireCard (rs : jsstring * jsstring) : jsstring :=
  fst rs ++ snd rs.

(** A string-valued property is set (present) when it holds a non-empty
    string. *)
Definition isSet (v : option jsstring) : Prop :=
  exists s, v = Some s /\ s <> [].

(** The 52 cards as the wire format writes them: a rank, then one of the
    four suit characters. *)
Definition wireDeck : list (jsstring * jsstring) :=
  list_prod wireRanks unicodeSuits.

(** The top card of a view: the (rank, suit) whose wire string is the
    view's [top_card]. *)
Definition topCardOf (g : View) : option (jsstring * jsstring) :=
  match top_card g with
  | Some w => find (fun rs => eqb (wireCard rs) w) wireDeck
  | None => None
  end.

(** The ordered legality rule, in the words of the specification: an
    eight is always legal; otherwise, with an active suit set, the card's
    suit must be the active suit; otherwise the card must match the top
    card in suit or in rank. *)
Definition legalBySpec (g : View) (c : GameBoard.Card) : Prop :=
  GameBoard.rank c = lit "8"%string \/
  (GameBoard.rank c <> lit "8"%string /\
   ((isSet (active_suit g) /\ active_suit g = Some (GameBoard.suit c)) \/
    (~ isSet (active_suit g) /\
     exists t, topCardOf g = Some t /\
               (GameBoard.suit c = snd t \/ GameBoard.rank c = fst t)))).

(** What the client's check computes: the same order of cases, with the
    top card as [parseCard] reads it off the [top_card] string. *)
Definition legalOnParsedTop (g : View) (c : GameBoard.Card) : Prop :=
  GameBoard.rank c = lit "8"%string \/
  (GameBoard.rank c <> lit "8"%string /\
   ((isSet (active_suit g) /\ active_suit g = Some (GameBoard.suit c)) \/
    (~ isSet (active_suit g) /\
     exists t, top_card g = Some t /\ t <> [] /\
               (GameBoard.suit c = GameBoard.suit (GameBoard.parseCard t) \/
                GameBoard.rank c = GameBoard.rank (GameBoard.parseCard t))))).

(** A view of the first player's turn with the given top card string and
    hand strings, no active suit. *)
Definition viewOnTop (w : jsstring) (hand : list jsstring) : View :=
  {| players := None; your_hand := Some hand; top_card := Some w;
     active_suit := None; current_player_id := Some (lit "p1"%string);
     winner_id := None |}.

(** The seven of clubs, U+0037 U+2663, as top card. *)
Definition sevenOfClubsOnTop : View :=
  viewOnTop (lit "7"%string ++ [9827]%N) [].

Definition sevenOfDiamonds : GameBoard.Card :=
  {| GameBoard.rank := lit "7"%string; GameBoard.suit := [9830]%N |}.

(** The update that deals the viewer the eight of suit [s], and the board
    after that update and a click on the card. *)
Definition dealtEight (s : jsstring) : GameUpdate :=
  {| type := lit "game_update"%string;
     data := Some {| player_state :=
                       Some (viewOnTop (lit "7"%string ++ [9827]%N)
                                       [lit "8"%string ++ s]);
                     game_state := None;
                     own := emptyView |} |}.

Definition viewerProps : GameBoard.Props :=
  {| GameBoard.gameId := lit "g1"%string;
     GameBoard.playerId := lit "p1"%string |}.

Definition boardWithEight (s : jsstring) : GameBoard.State :=
  fst (GameBoard.dispatch viewerProps
         (GameBoard.onmessage GameBoard.initialState (dealtEight s))
         (GameBoard.ClickCard 0) NetworkError).

(** The action controls a state renders, if it renders the board. *)
Definition actionsOf (props : GameBoard.Props) (st : GameBoard.State)
  : option GameBoard.Actions :=
  match GameBoard.render props st with
  | GameBoard.BoardScreen b => GameBoard.actions b
  | _ => None
  end.

(** The same message under another type tag. *)
Definition retag (t : jsstring) (u : GameUpdate) : GameUpdate :=
  {| type := t; data := data u |}.

(** The payload object [update.data || {}]. *)
Definition payloadOf (u : GameUpdate) : Payload :=
  match data u with
  | Some d => d
  | None => emptyPayload
  end.

(** Which object of the payload a consumer ends up reading. *)
Inductive Source := FromPlayerState | FromGameState | FromData.

Definition pick (src : Source) (d : Payload) : option View :=
  match src with
  | FromPlayerState => player_state d
  | FromGameState => game_state d
  | FromData => Some (own d)
  end.

(** A consumer dispatches on the type tag when the tag alone decides
    which object of the payload it reads: [read] turns the object picked
    (if the payload has it) into what the consumer stores. *)
Definition dispatchesOnType {R : Type} (read : option View -> R)
           (consume : GameUpdate -> R) : Prop :=
  exists sel : jsstring -> Source,
    forall u d, data u = Some d -> consume u = read (pick (sel (type u)) d).

(** Probing the payload for optional fields: [player_state] if present,
    else [game_state] if present, else the payload itself. *)
Definition probe (d : Payload) : Source :=
  match player_state d with
  | Some _ => FromPlayerState
  | None => match game_state d with
            | Some _ => FromGameState
            | None => FromData
            end
  end.

(** What GameBoard stores as its game state. *)
Definition boardConsumes (st : GameBoard.State) (u : GameUpdate)
  : option View :=
  GameBoard.gameState (GameBoard.onmessage st u).

(** What WaitingRoom stores as its player list, and how it is read off
    the object picked. *)
Definition roomConsumes (st : WaitingRoom.State) (u : GameUpdate)
  : list PlayerInfo :=
  WaitingRoom.players (WaitingRoom.onmessage st u).

Definition roomRead (st : WaitingRoom.State) (v : option View)
  : list PlayerInfo :=
  match v with
  | Some w => match players w with
              | Some ps => ps
              | None => WaitingRoom.players st
              end
  | None => WaitingRoom.players st
  end.

(** Sample messages: the same tag over payloads of different shapes. *)
Definition seat (n : String.string) : PlayerInfo :=
  {| id := lit n; name := lit n; hand_size := None |}.

Definition viewOf (n : String.string) : View :=
  {| players := Some [seat n]; your_hand := None; top_card := None;
     active_suit := None; current_player_id := None; winner_id := None |}.

Definition msgBoth : GameUpdate :=
  {| type := lit "game_update"%string;
     data := Some {| player_state := Some (viewOf "a"%string);
                     game_state := Some (viewOf "b"%string);
                     own := viewOf "c"%string |} |}.

Definition msgPublic : GameUpdate :=
  {| type := lit "game_update"%string;
     data := Some {| player_state := None;
                     game_state := Some (viewOf "b"%string);
                     own := viewOf "c"%string |} |}.

(** *** Engine *)

(** A game is consistent when it seats at most two players and holds no
    card before the deal and all 52 after it. *)
Definition consistent (g : Engine.Game) : Prop :=
  length (Engine.players g) <= 2 /\
  Engine.cardCount g = match Engine.state g with
                       | Engine.WAITING => 0
                       | _ => 52
                       end.

(** What a successful operation keeps: the number of cards, the number
    of seats and the game id. *)
Definition keeps (g g' : Engine.Game) : Prop :=
  Engine.cardCount g' = Engine.cardCount g /\
  length (Engine.players g') = length (Engine.players g) /\
  Engine.gid g' = Engine.gid g.

(** The games reachable from a freshly created one. *)
Definition reached (gid : nat) (cs : list Engine.Command) : Engine.Game :=
  Engine.execAll cs (Engine.createGame gid).

(** A sample session: two players join, the game starts, the first
    player draws. *)
Definition sampleSeed : list nat := [3; 14; 15; 9; 26; 5; 35].

Definition seated : list Engine.Command :=
  [Engine.Join "Alice"%string; Engine.Join "Bob"%string].

Definition sampleSession : list Engine.Command :=
  seated ++ [Engine.Start sampleSeed; Engine.DrawCard 1 []].

(** The sample game right after the deal: it is the first player's
    turn. *)
Definition sampleDealt : Engine.Game :=
  reached 1 (seated ++ [Engine.Start sampleSeed]).

(** The sample game with one player seated. *)
Definition sampleAlone : Engine.Game :=
  reached 1 [Engine.Join "Alice"%string].

Definition sampleRoom : WaitingRoom.State :=
  {| WaitingRoom.players := [seat "Alice"%string; seat "Bob"%string];
     WaitingRoom.loading := false |}.

(** A state read that lists a single player. *)
Definition onePlayerRead : FetchResult :=
  Response true
    (Some {| detail := None;
             view := {| players := Some [seat "Alice"%string];
                        your_hand := None; top_card := None;
                        active_suit := None; current_player_id := None;
                        winner_id := None |} |}).

(** An ACTIVE game in which the player to move holds the eight of
    spades. *)
Definition eightOfSpades : Engine.Card :=
  {| Engine.rank := Engine.R8; Engine.suit := Engine.Spades |}.

Definition holder : Engine.Player :=
  {| Engine.id := 1; Engine.name := "Alice"%string;
     Engine.hand := [eightOfSpades;
                     {| Engine.rank := Engine.R3;
                        Engine.suit := Engine.Hearts |}] |}.

Definition eightInHand : Engine.Game :=
  {| Engine.gid := 1;
     Engine.players :=
       [holder;
        {| Engine.id := 2; Engine.name := "Bob"%string;
           Engine.hand := [{| Engine.rank := Engine.RQ;
                              Engine.suit := Engine.Clubs |}] |}];
     Engine.drawPile := [];
     Engine.discardPile := [{| Engine.rank := Engine.R7;
                               Engine.suit := Engine.Clubs |}];
     Engine.activeSuit := None;
     Engine.currentPlayerIndex := 0;
     Engine.state := Engine.ACTIVE;
     Engine.winnerId := None |}.

Definition mk (r : Engine.Rank) (u : Engine.Suit) : Engine.Card :=
  {| Engine.rank := r; Engine.suit := u |}.

(** The table of scenarios 3 and 4 of the specification: top card the
    seven of clubs, no active suit, the first player to move. *)
Definition scenarioTable : Engine.Game :=
  {| Engine.gid := 1;
     Engine.players :=
       [{| Engine.id := 1; Engine.name := "Alice"%string;
           Engine.hand := [mk Engine.R5 Engine.Diamonds;
                           mk Engine.R7 Engine.Diamonds;
                           mk Engine.R9 Engine.Clubs;
                           mk Engine.R3 Engine.Hearts;
                           mk Engine.RK Engine.Spades] |};
        {| Engine.id := 2; Engine.name := "Bob"%string;
           Engine.hand := [mk Engine.R8 Engine.Spades;
                           mk Engine.R2 Engine.Clubs] |}];
     Engine.drawPile := [mk Engine.RA Engine.Hearts];
     Engine.discardPile := [mk Engine.R7 Engine.Clubs];
     Engine.activeSuit := None;
     Engine.currentPlayerIndex := 0;
     Engine.state := Engine.ACTIVE;
     Engine.winnerId := None |}.

Definition sampleApp : App.GameState :=
  {| App.gameId := lit "g1"%string; App.playerId := lit "p1"%string;
     App.playerName := lit "Alice"%string; App.phase := App.waiting |}.

(** *** Client *)

Definition sampleProps : GameBoard.Props :=
  {| GameBoard.gameId := lit "g1"%string;
     GameBoard.playerId := lit "p1"%string |}.

Definition sampleView : View :=
  {| players := None; your_hand := None;
     top_card := Some (lit "7"%string ++ [8218; 244; 163]%N);
     active_suit := None;
     current_player_id := Some (lit "p1"%string);
     winner_id := None |}.

Definition sampleEight : GameBoard.Card :=
  {| GameBoard.rank := lit "8"%string;
     GameBoard.suit := [8218; 244; 8224]%N |}.

Definition sampleBoard : GameBoard.State :=
  {| GameBoard.gameState := Some sampleView;
     GameBoard.hand := [sampleEight];
     GameBoard.selectedCard := Some sampleEight;
     GameBoard.declaredSuit := Some [8218; 244; 8226]%N;
     GameBoard.loading := false |}.

End Statements.

(* ================================================================== *)
(** ** config.ts and vite.config.ts *)
(* ================================================================== *)

Module Config.
Import JsString Http.

(** [import.meta.env.VITE_BACKEND_URL || 'http://localhost:8000']; the
    variable is a string or undefined. *)
Definition API_BASE_URL (VITE_BACKEND_URL : option jsstring) : jsstring :=
  orElse VITE_BACKEND_URL (lit "http://localhost:8000"%string).

(** [API_BASE_URL.replace('http', 'ws')]. *)
Definition WS_BASE_URL (VITE_BACKEND_URL : option jsstring) : jsstring :=
  replace (API_BASE_URL VITE_BACKEND_URL) (lit "http"%string)
          (lit "ws"%string).

(** vite.config.ts: the two proxy targets of the dev server. *)
Definition backendUrl (VITE_BACKEND_URL : option jsstring) : jsstring :=
  orElse VITE_BACKEND_URL (lit "http://localhost:8000"%string).

Definition backendWsUrl (VITE_BACKEND_URL : option jsstring) : jsstring :=
  replace (backendUrl VITE_BACKEND_URL) (lit "http"%string)
          (lit "ws"%string).

End Config.

(* ================================================================== *)
(** ** GameBoard.tsx: the initial fetch and the rest of the board *)
(* ================================================================== *)

Module BoardIO.
Import JsString Wire Http GameBoard.

(** [fetchGameState] of the board's effect; [res] is how the [fetch] and
    the [json()] it awaits end.  The status of the response is not
    read. *)
Definition fetchGameState (props : Props) (st : State) (res : FetchResult)
  : State * list Effect :=
  let req := Fetch (GetState (gameId props) (playerId props)) in
  match res with
  | Response _ (Some data) =>
      ({| gameState := Some (view data);
          hand := parseHand (match your_hand (view data) with
                             | Some h => h
                             | None => []
                             end);
          selectedCard := selectedCard st;
          declaredSuit := declaredSuit st;
          loading := false |}, [req])
  | _ => (st, [req; ConsoleError (lit "Failed to fetch game state:"%string)])
  end.

(** [gameState.players?.find((p: any) => p.id !== playerId)]. *)
Definition otherPlayer (props : Props) (g : View) : option PlayerInfo :=
  match players g with
  | Some ps => find (fun p => negb (eqb (id p) (playerId props))) ps
  | None => None
  end.

(** [{gameState.winner_id && (...)}]: the game-over banner. *)
Definition gameOverShown (g : View) : bool := truthy (winner_id g).

(** [{!isCurrentPlayer && !gameState.winner_id && (...)}]: the waiting
    notice. *)
Definition waitingShown (props : Props) (g : View) : bool :=
  negb (isCurrentPlayer props g) && negb (truthy (winner_id g)).

(** What reaches the mounted board: the result of the initial fetch, a
    socket message, or a user event together with how the request it may
    send ends. *)
Inductive Input :=
| Fetched (res : FetchResult)
| Message (u : GameUpdate)
| User (ev : Event) (res : FetchResult).

Definition step (props : Props) (st : State) (i : Input) : State :=
  match i with
  | Fetched res => fst (fetchGameState props st res)
  | Message u => onmessage st u
  | User ev res => fst (dispatch props st ev res)
  end.

Definition run (props : Props) (st : State) (inputs : list Input) : State :=
  fold_left (step props) inputs st.

(** What the component sends and shows when an input reaches it. *)
Definition sent (props : Props) (st : State) (i : Input) : list Effect :=
  match i with
  | Fetched res => snd (fetchGameState props st res)
  | Message _ => []
  | User ev res => snd (dispatch props st ev res)
  end.

(** A request fails when its [fetch] rejects or the response is not
    ok. *)
Definition failed (res : FetchResult) : bool :=
  match res with
  | Response true _ => false
  | _ => true
  end.

Definition isUser (i : Input) : bool :=
  match i with User _ _ => true | _ => false end.

(** [data.your_hand || []] read off a state object. *)
Definition handOf (g : View) : list jsstring :=
  match your_hand g with
  | Some h => h
  | None => []
  end.

(** Once loaded the board has a game state, and its hand is the
    [your_hand] of that state. *)
Definition settled (st : State) : Prop :=
  (loading st = false -> gameState st <> None) /\
  (forall g, gameState st = Some g -> hand st = parseHand (handOf g)).

Definition isAlert (e : Effect) : bool :=
  match e with Alert _ => true | _ => false end.

Definition isFetch (e : Effect) : bool :=
  match e with Fetch _ => true | _ => false end.

(** How many alerts, and how many requests, a handler run makes. *)
Definition alerts (es : list Effect) : nat := length (filter isAlert es).
Definition requests (es : list Effect) : nat := length (filter isFetch es).

End BoardIO.

(* ================================================================== *)
(** ** WaitingRoom.tsx: the state fetch *)
(* ================================================================== *)

Module RoomIO.
Import JsString Wire Http WaitingRoom.

(** [fetchGameState] of the waiting room, run at mount and every two
    seconds; [res] is the parsed [GameState] body ([data.players], an
    array by its declared type), or [None] when the [fetch] or [json()]
    rejects. *)
Definition fetchGameState (gameId playerId : jsstring) (st : State)
           (res : option (list PlayerInfo)) : State * list Effect :=
  let req := Fetch (GetState gameId playerId) in
  match res with
  | Some ps => ({| players := ps; loading := false |}, [req])
  | None =>
      (st, [req; ConsoleError (lit "Failed to fetch game state:"%string)])
  end.

(** What reaches the waiting room: a fetch result or a socket message. *)
Inductive Input :=
| Fetched (res : option (list PlayerInfo))
| Message (u : GameUpdate).

Definition step (gameId playerId : jsstring) (st : State) (i : Input)
  : State :=
  match i with
  | Fetched res => fst (fetchGameState gameId playerId st res)
  | Message u => onmessage st u
  end.

Definition run (gameId playerId : jsstring) (st : State)
           (inputs : list Input) : State :=
  fold_left (step gameId playerId) inputs st.

Definition fetchSucceeded (i : Input) : bool :=
  match i with Fetched (Some _) => true | _ => false end.

End RoomIO.

(* ================================================================== *)
(** ** Lobby.tsx *)
(* ================================================================== *)

Module Lobby.
Import JsString.

(** The four [useState] cells; [createdGameId] holds what
    [data.game_id] was, a string or undefined. *)
Record State := {
  gameId : jsstring;
  playerName : jsstring;
  creatorName : jsstring;
  createdGameId : option jsstring
}.

Definition initialState : State :=
  {| gameId := []; playerName := []; creatorName := [];
     createdGameId := Some [] |}.

Inductive Effect :=
| PostCreate
| Alert (msg : jsstring)
| ConsoleError (msg : jsstring)
| OnJoinGame (gameId : option jsstring) (playerName : jsstring).

(** How the create request ends: [None] when the [fetch] or [json()]
    rejects, else the body's [game_id], a string or undefined. *)
Definition CreateResult := option (option jsstring).

Definition handleCreateGame (st : State) (res : CreateResult)
  : State * list Effect :=
  if negb (truthy (Some (creatorName st))) then
    (st, [Alert (lit "Please enter your name before creating a game."%string)])
  else
    match res with
    | Some game_id =>
        ({| gameId := gameId st; playerName := playerName st;
            creatorName := creatorName st; createdGameId := game_id |},
         [PostCreate; OnJoinGame game_id (creatorName st)])
    | None =>
        (st, [PostCreate; ConsoleError (lit "Failed to create game:"%string)])
    end.

Definition handleJoin (st : State) : list Effect :=
  if truthy (Some (gameId st)) && truthy (Some (playerName st))
  then [OnJoinGame (Some (gameId st)) (playerName st)]
  else [].

(** [disabled={!gameId || !playerName}] of the Join Game button. *)
Definition joinDisabled (st : State) : bool :=
  negb (truthy (Some (gameId st))) || negb (truthy (Some (playerName st))).

(** [{createdGameId && (...)}]: the block that shows the new game id. *)
Definition createdShown (st : State) : bool := truthy (createdGameId st).

Inductive Event :=
| ChangeCreatorName (v : jsstring)
| ChangeGameId (v : jsstring)
| ChangePlayerName (v : jsstring)
| ClickCreate
| ClickJoin
| KeyPressPlayerName (key : jsstring).

(** The handlers as the rendered lobby attaches them: the Join Game button
    fires only when enabled, the name field calls [handleJoin] on Enter. *)
Definition dispatch (st : State) (ev : Event) (res : CreateResult)
  : State * list Effect :=
  match ev with
  | ChangeCreatorName v =>
      ({| gameId := gameId st; playerName := playerName st;
          creatorName := v; createdGameId := createdGameId st |}, [])
  | ChangeGameId v =>
      ({| gameId := v; playerName := playerName st;
          creatorName := creatorName st;
          createdGameId := createdGameId st |}, [])
  | ChangePlayerName v =>
      ({| gameId := gameId st; playerName := v;
          creatorName := creatorName st;
          createdGameId := createdGameId st |}, [])
  | ClickCreate => handleCreateGame st res
  | ClickJoin => if joinDisabled st then (st, []) else (st, handleJoin st)
  | KeyPressPlayerName key =>
      if eqb key (lit "Enter"%string) then (st, handleJoin st) else (st, [])
  end.

End Lobby.

(* ================================================================== *)
(** ** App.tsx: joining *)
(* ================================================================== *)

Module Join.
Import JsString Http.

(** The state [handleJoinGame] stores: [playerId] is the body's
    [player_id], a string or undefined. *)
Record Entered := {
  gameId : jsstring;
  playerId : option jsstring;
  playerName : jsstring;
  phase : App.GamePhase
}.

(** How the join request ends: [None] when the [fetch] or [json()]
    rejects, else the response's [ok] flag and the body's [player_id]. *)
Definition JoinResult := option (bool * option jsstring).

(** [handleJoinGame]; the outcome is the state it sets, if any. *)
Definition handleJoinGame (gameId playerName : jsstring) (res : JoinResult)
  : option Entered * list Effect :=
  let req := Fetch (PostJoin gameId playerName) in
  match res with
  | Some (_, player_id) =>
      (Some {| gameId := gameId; playerId := player_id;
               playerName := playerName; phase := App.waiting |}, [req])
  | None => (None, [req; ConsoleError (lit "Failed to join game:"%string)])
  end.

(** The stored state as [App.GameState], when the player id is there. *)
Definition toGameState (e : Entered) : option App.GameState :=
  match playerId e with
  | Some pid =>
      Some {| App.gameId := gameId e; App.playerId := pid;
              App.playerName := playerName e; App.phase := phase e |}
  | None => None
  end.

End Join.

(* ================================================================== *)
(** ** Sample data *)
(* ================================================================== *)

Module Cases.
Import JsString Wire Http.

Definition sevenOfClubs : GameBoard.Card :=
  {| GameBoard.rank := lit "7"%string;
     GameBoard.suit := [8218; 244; 163]%N |}.

(** A board on which the seven of clubs is selected. *)
Definition boardWithSeven : GameBoard.State :=
  {| GameBoard.gameState := Some Statements.sampleView;
     GameBoard.hand := [sevenOfClubs];
     GameBoard.selectedCard := Some sevenOfClubs;
     GameBoard.declaredSuit := None;
     GameBoard.loading := false |}.

(** A view in which it is p1's turn and the hand is empty. *)
Definition emptyHanded : View :=
  {| players := Some [Statements.seat "p1"%string;
                      Statements.seat "p2"%string];
     your_hand := Some [];
     top_card := Some (lit "7"%string ++ [8218; 244; 163]%N);
     active_suit := None;
     current_player_id := Some (lit "p1"%string);
     winner_id := None |}.

Definition emptyHandedUpdate : GameUpdate :=
  {| type := lit "game_update"%string;
     data := Some {| player_state := Some emptyHanded;
                     game_state := None;
                     own := emptyView |} |}.

(** A view in which it is p2's turn. *)
Definition othersTurn : View :=
  {| players := Some [Statements.seat "p1"%string;
                      Statements.seat "p2"%string];
     your_hand := Some [];
     top_card := None;
     active_suit := None;
     current_player_id := Some (lit "p2"%string);
     winner_id := None |}.

Definition boardOthersTurn : GameBoard.State :=
  {| GameBoard.gameState := Some othersTurn;
     GameBoard.hand := [];
     GameBoard.selectedCard := None;
     GameBoard.declaredSuit := None;
     GameBoard.loading := false |}.

Definition threeSeats : list PlayerInfo :=
  [Statements.seat "a"%string; Statements.seat "b"%string;
   Statements.seat "c"%string].

(** A start goes through when the state read succeeded and listed at
    least two players, and the start request succeeded. *)
Definition startAccepted (stateResp startResp : FetchResult) : Prop :=
  exists body ps o,
    stateResp = Response true (Some body) /\
    players (view body) = Some ps /\ 2 <= length ps /\
    startResp = Response true o.

Definition roomOfThree : WaitingRoom.State :=
  {| WaitingRoom.players := threeSeats; WaitingRoom.loading := false |}.

Definition lobbyReady : Lobby.State :=
  {| Lobby.gameId := lit "g1"%string; Lobby.playerName := lit "Bob"%string;
     Lobby.creatorName := []; Lobby.createdGameId := Some [] |}.

Definition twoPlayersRead : FetchResult :=
  Response true
    (Some {| detail := None;
             view := {| players := Some [Statements.seat "Alice"%string;
                                         Statements.seat "Bob"%string];
                        your_hand := None; top_card := None;
                        active_suit := None; current_player_id := None;
                        winner_id := None |} |}).

End Cases.

(* ================================================================== *)
(** * Properties *)
(* ================================================================== *)

(** ** Strings *)

Section StringFacts.
Import JsString.

Lemma eqb_refl (a : jsstring) : eqb a a = true.
Proof.
  induction a as [|x a IH]; simpl; [reflexivity|].
  now rewrite N.eqb_refl, IH.
Qed.

Lemma eqb_eq (a b : jsstring) : eqb a b = true <-> a = b.
Proof.
  split; [|intros ->; apply eqb_refl].
  revert b; induction a as [|x a IH]; intros [|y b]; simpl;
    try discriminate; [reflexivity|].
  intros H. apply andb_true_iff in H as [Hx Hr].
  apply N.eqb_eq in Hx. f_equal; auto.
Qed.

Lemma eqb_neq (a b : jsstring) : eqb a b = false <-> a <> b.
Proof.
  rewrite <- eqb_eq. destruct (eqb a b); split; congruence.
Qed.

Lemma startsWith_nil (s : jsstring) : startsWith s [] = true.
Proof. destruct s; reflexivity. Qed.


Lemma truthy_iff (v : option jsstring) :
  truthy v = true <-> exists s, v = Some s /\ s <> [].
Proof.
  destruct v as [[|c r]|]; simpl; split; try discriminate.
  - intros (s & [= <-] & H). congruence.
  - intros _. exists (c :: r). split; [reflexivity|discriminate].
  - reflexivity.
  - intros (s & H & _). discriminate.
Qed.

Lemma strict_eq_iff (v : option jsstring) (s : jsstring) :
  strict_eq v s = true <-> v = Some s.
Proof.
  destruct v as [t|]; simpl.
  - rewrite eqb_eq. split; congruence.
  - split; discriminate.
Qed.

End StringFacts.

(** ** Cards on the client *)

Section ClientCards.
Import JsString Wire Http GameBoard Statements.

Lemma parseCard_short (s : jsstring) :
  length s < 2 -> parseCard s = {| rank := []; suit := [] |}.
Proof.
  intros H. unfold parseCard.
  apply Nat.ltb_lt in H. rewrite H, orb_true_r. reflexivity.
Qed.

Lemma parseCard_long (s : jsstring) :
  2 <= length s ->
  parseCard s =
    let suit := match find (fun t => includes s t) suits with
                | Some t => t
                | None => []
                end in
    {| rank := replace s suit []; suit := suit |}.
Proof.
  intros H. unfold parseCard.
  destruct s as [|c [|d r]]; simpl in H; try lia.
  reflexivity.
Qed.

(** The parser splits every card built from the entries of its own suit
    table. *)
Lemma parseCard_table_roundtrip :
  Forall (fun rs => parseCard (wireCard rs)
                    = {| rank := fst rs; suit := snd rs |})
         (list_prod wireRanks suits).
Proof. vm_compute. repeat constructor. Qed.

(** C7: for non-null cards [a] and [b], [cardsEqual(a, b)] is true exactly
    when the two ranks are equal and the two suits are equal. *)
Theorem cardsEqual_iff_rank_suit (a b : Card) :
  cardsEqual (Some a) (Some b) = true <-> rank a = rank b /\ suit a = suit b.
Proof.
  unfold cardsEqual. rewrite andb_true_iff, !eqb_eq. reflexivity.
Qed.

Lemma cardsEqual_iff_rank_suit_witness :
  cardsEqual (Some sampleEight) (Some sampleEight) = true.
Proof.
  apply (cardsEqual_iff_rank_suit sampleEight sampleEight).
  split; reflexivity.
Defined.

(** C8: at each of the 52 cards written with the suit characters U+2665,
    U+2666, U+2663, U+2660, [parseCard] finds no suit: it returns the
    whole card string as the rank and the empty string as the suit, not
    the pair (rank, suit). *)
Theorem parseCard_unicode_suit_unsplit :
  Forall (fun rs => parseCard (wireCard rs)
                    = {| rank := wireCard rs; suit := [] |}
                    /\ parseCard (wireCard rs)
                       <> {| rank := fst rs; suit := snd rs |})
         (list_prod wireRanks unicodeSuits).
Proof.
  vm_compute. repeat constructor; discriminate.
Qed.

(** What follows for a hand the server sends: the eight of hearts, written
    with U+2665, reaches the board with the whole string as its rank, so it
    is not an eight there and its play request carries no declared suit. *)
Example unicode_eight_on_the_board :
  parseHand [lit "8"%string ++ [9829]%N]
  = [{| rank := lit "8"%string ++ [9829]%N; suit := [] |}] /\
  playBody {| rank := lit "8"%string ++ [9829]%N; suit := [] |}
           (Some [8218; 244; 8226]%N)
  = {| card := lit "8"%string ++ [9829]%N; declared_suit := None |}.
Proof. split; reflexivity. Qed.


End ClientCards.

(** ** The client's legality check *)

Section ClientLegality.
Import JsString Wire Http GameBoard Statements.

Lemma isSet_truthy (v : option jsstring) : isSet v <-> truthy v = true.
Proof. symmetry. apply truthy_iff. Qed.

(** The check goes through the cases of the rule in the rule's order; its
    top card is what [parseCard] makes of the [top_card] string. *)
Lemma canPlayCard_iff_legalOnParsedTop (g : View) (c : Card) :
  canPlayCard (Some g) c = true <-> legalOnParsedTop g c.
Proof.
  unfold canPlayCard, legalOnParsedTop.
  destruct (eqb (rank c) (lit "8"%string)) eqn:E8.
  - apply eqb_eq in E8. tauto.
  - apply eqb_neq in E8.
    destruct (truthy (active_suit g)) eqn:Ea.
    + rewrite strict_eq_iff. apply isSet_truthy in Ea.
      split.
      * intros H. right. split; [assumption|]. left. split; assumption.
      * intros [H|[_ [[_ H]|[H _]]]]; [contradiction|assumption|contradiction].
    + assert (Hns : ~ isSet (active_suit g)).
      { rewrite isSet_truthy, Ea. discriminate. }
      destruct (truthy (top_card g)) eqn:Et; simpl.
      * apply truthy_iff in Et as (t & Ht & Hne). rewrite Ht.
        rewrite orb_true_iff, !eqb_eq. split.
        -- intros H. right. split; [assumption|]. right.
           split; [assumption|]. exists t. auto.
        -- intros [H|[_ [[H _]|[_ (t' & [= <-] & _ & H)]]]];
             [contradiction|contradiction|assumption].
      * split; [discriminate|].
        intros [H|[_ [[H _]|[_ (t & Ht & Hne & _)]]]];
          [contradiction|contradiction|].
        assert (truthy (top_card g) = true) by
          (apply truthy_iff; exists t; auto).
        congruence.
Qed.

(** C1: on the cards of the wire format [canPlayCard] does not follow
    the legality rule.  With the seven of clubs on top and no active suit,
    the seven of diamonds is legal (the ranks match) and the check refuses
    it; the ace of hearts, as [parseHand] puts it in the hand, is not legal
    and the check accepts it; and the check accepts every one of the 52
    hand cards on every one of the 52 top cards. *)
Theorem canPlayCard_misjudges_wire_cards :
  (legalBySpec sevenOfClubsOnTop sevenOfDiamonds /\
   canPlayCard (Some sevenOfClubsOnTop) sevenOfDiamonds = false) /\
  (~ legalBySpec sevenOfClubsOnTop (parseCard (lit "A"%string ++ [9829]%N)) /\
   canPlayCard (Some sevenOfClubsOnTop)
               (parseCard (lit "A"%string ++ [9829]%N)) = true) /\
  Forall (fun top =>
            Forall (fun h =>
                      canPlayCard (Some (viewOnTop (wireCard top) []))
                                  (parseCard (wireCard h)) = true)
                   wireDeck)
         wireDeck.
Proof.
  split; [|split].
  - split; [|reflexivity].
    right. split; [discriminate|]. right. split.
    + intros (s & H & _). discriminate.
    + exists (lit "7"%string, [9827]%N). split; [reflexivity|].
      right. reflexivity.
  - split; [|reflexivity].
    intros [H|[_ [[(s & H & _) _]|[_ (t & Ht & H)]]]].
    + vm_compute in H. discriminate.
    + discriminate.
    + vm_compute in Ht. injection Ht as <-.
      vm_compute in H. destruct H as [H|H]; discriminate.
  - vm_compute. repeat constructor.
Qed.

End ClientLegality.

(** ** Update messages *)

Section UpdateMessages.
Import JsString Wire Http Statements.

Lemma board_probes (st : GameBoard.State) (u : GameUpdate) :
  boardConsumes st u = pick (probe (payloadOf u)) (payloadOf u).
Proof.
  unfold boardConsumes, GameBoard.onmessage, payloadOf, probe. simpl.
  destruct (data u) as [[[v|] [w|] o]|]; reflexivity.
Qed.

Lemma room_probes (st : WaitingRoom.State) (u : GameUpdate) :
  roomConsumes st u = roomRead st (pick (probe (payloadOf u)) (payloadOf u)).
Proof.
  unfold roomConsumes, WaitingRoom.onmessage, payloadOf, probe, roomRead.
  unfold WaitingRoom.boardStateOf.
  destruct (data u) as [[[v|] [w|] o]|]; simpl; try reflexivity.
  - destruct (players v) eqn:E; simpl; rewrite ?E; reflexivity.
  - destruct (players v) eqn:E; simpl; rewrite ?E; reflexivity.
  - destruct (players w) eqn:E; simpl; rewrite ?E; reflexivity.
  - destruct (players o) eqn:E; simpl; rewrite ?E; reflexivity.
Qed.

(** C3, as stated, fails: neither consumer dispatches on the type tag.
    The two sample messages carry the same tag, and each consumer reads a
    different object of the payload in them. *)
Lemma consumers_do_not_dispatch_on_type :
  ~ dispatchesOnType (fun v => v) (boardConsumes GameBoard.initialState) /\
  ~ dispatchesOnType (roomRead WaitingRoom.initialState)
                     (roomConsumes WaitingRoom.initialState).
Proof.
  split; intros [sel H].
  - pose proof (H msgBoth _ eq_refl) as H1.
    pose proof (H msgPublic _ eq_refl) as H2.
    simpl in H1, H2.
    destruct (sel (lit "game_update"%string)); vm_compute in H1, H2;
      discriminate.
  - pose proof (H msgBoth _ eq_refl) as H1.
    pose proof (H msgPublic _ eq_refl) as H2.
    simpl in H1, H2.
    destruct (sel (lit "game_update"%string)); vm_compute in H1, H2;
      discriminate.
Qed.

(** C3, amended: the consumers never read the type tag.  For every update
    message, GameBoard and WaitingRoom handle it as they handle the same
    message under any other tag, and the object they read is found by
    probing the payload: [player_state] if present, else [game_state] if
    present, else the payload itself. *)
Theorem consumers_probe_payload
        (bs : GameBoard.State) (ws : WaitingRoom.State)
        (u : GameUpdate) (t : jsstring) :
  GameBoard.onmessage bs (retag t u) = GameBoard.onmessage bs u /\
  WaitingRoom.onmessage ws (retag t u) = WaitingRoom.onmessage ws u /\
  boardConsumes bs u = pick (probe (payloadOf u)) (payloadOf u) /\
  roomConsumes ws u = roomRead ws (pick (probe (payloadOf u)) (payloadOf u)).
Proof.
  repeat split.
  - apply board_probes.
  - apply room_probes.
Qed.

End UpdateMessages.

(** ** The game board's controls *)

Section BoardControls.
Import JsString Wire Http GameBoard Statements.

Lemma handleDrawCard_no_play props st res e :
  In e (snd (handleDrawCard props st res)) -> isPlay e = false.
Proof.
  unfold handleDrawCard.
  destruct res as [|[|] body]; simpl; intuition (subst; reflexivity).
Qed.

(** The only play request [handlePlayCard] sends is the body built from
    the selected card and the declared suit. *)
Lemma handlePlayCard_request props st res g p body :
  In (Fetch (PostPlay g p body)) (snd (handlePlayCard props st res)) ->
  exists sel, selectedCard st = Some sel /\
              body = playBody sel (declaredSuit st).
Proof.
  unfold handlePlayCard.
  destruct (selectedCard st) as [sel|]; [|intros []].
  destruct (gameState st); [|intros []].
  intros H. exists sel. split; [reflexivity|].
  destruct res as [|[|] b]; simpl in H;
    repeat (destruct H as [H|H]; [congruence|]); destruct H.
Qed.

Lemma playBody_eight sel d :
  rank sel = lit "8"%string -> declared_suit (playBody sel d) = d.
Proof.
  intros H. unfold playBody. simpl. now rewrite H.
Qed.

Lemma playBody_other sel d :
  rank sel <> lit "8"%string -> declared_suit (playBody sel d) = None.
Proof.
  intros H. unfold playBody. simpl.
  apply eqb_neq in H. now rewrite H.
Qed.

Lemma render_board props st b :
  render props st = BoardScreen b ->
  exists g, loading st = false /\ gameState st = Some g /\
    deck_onClick b = (if isCurrentPlayer props g then Some HandleDrawCard
                      else None) /\
    actions b =
      (if isCurrentPlayer props g then
         match selectedCard st with
         | Some sel =>
             Some (if eqb (rank sel) (lit "8"%string)
                   then SuitSelector (orElse (declaredSuit st) [])
                                     HandlePlayCard
                                     (negb (truthy (declaredSuit st)))
                   else PlayCardButton HandlePlayCard)
         | None => None
         end
       else None).
Proof.
  unfold render. destruct (loading st); [discriminate|].
  destruct (gameState st) as [g|]; [|discriminate].
  intros [= <-]. exists g. repeat split.
Qed.

(** The Play 8 button exists only for a selected eight and is disabled
    exactly while no suit is declared. *)
Lemma play8_disabled_until_declared props st b v h dis :
  render props st = BoardScreen b ->
  actions b = Some (SuitSelector v h dis) ->
  (exists sel, selectedCard st = Some sel /\ rank sel = lit "8"%string) /\
  h = HandlePlayCard /\
  (dis = false <-> isSet (declaredSuit st)).
Proof.
  intros Hr Ha. apply render_board in Hr as (g & _ & _ & _ & Hact).
  rewrite Hact in Ha. destruct (isCurrentPlayer props g); [|discriminate].
  destruct (selectedCard st) as [sel|]; [|discriminate].
  destruct (eqb (rank sel) (lit "8"%string)) eqn:E8; [|discriminate].
  injection Ha as <- <- <-. apply eqb_eq in E8.
  split; [exists sel; auto|]. split; [reflexivity|].
  rewrite isSet_truthy. destruct (truthy (declaredSuit st)); simpl;
    split; congruence.
Qed.

(** Every play request that leaves the board carries the selected card;
    for an eight it carries a declared suit, for any other card none. *)
Lemma submitted_play props st ev res g p body :
  In (Fetch (PostPlay g p body)) (snd (dispatch props st ev res)) ->
  exists sel, selectedCard st = Some sel /\
    card body = rank sel ++ suit sel /\
    (rank sel = lit "8"%string -> isSet (declared_suit body)) /\
    (rank sel <> lit "8"%string -> declared_suit body = None).
Proof.
  unfold dispatch.
  destruct (render props st) as [| |b] eqn:Hr; try (intros []).
  pose proof (render_board _ _ Hr) as (v & _ & _ & Hdeck & Hact).
  assert (Hplay : forall sel, selectedCard st = Some sel ->
            (rank sel = lit "8"%string -> isSet (declaredSuit st)) ->
            In (Fetch (PostPlay g p body))
               (snd (handlePlayCard props st res)) ->
            exists sel, selectedCard st = Some sel /\
              card body = rank sel ++ suit sel /\
              (rank sel = lit "8"%string -> isSet (declared_suit body)) /\
              (rank sel <> lit "8"%string -> declared_suit body = None)).
  { intros sel Hs H8 Hin.
    apply handlePlayCard_request in Hin as (sel' & Hs' & ->).
    assert (sel' = sel) by congruence. subst sel'.
    exists sel. split; [assumption|]. split; [reflexivity|]. split.
    - intros E. rewrite playBody_eight by assumption. auto.
    - apply playBody_other. }
  destruct ev.
  - (* the deck *)
    rewrite Hdeck. destruct (isCurrentPlayer props v); [|intros []].
    intros H. apply handleDrawCard_no_play in H. discriminate.
  - destruct (nth_error (cards b) idx); intros [].
  - destruct (actions b) as [[| ]|]; intros [].
  - (* Play 8 *)
    destruct (actions b) as [[w h [|]|h]|] eqn:Ha; try (intros []).
    destruct (play8_disabled_until_declared _ _ Hr Ha)
      as ((sel & Hs & E8) & -> & Hdis).
    apply Hplay with sel; [assumption|]. intros _. now apply Hdis.
  - (* Play Card *)
    destruct (actions b) as [[w h d|h]|] eqn:Ha; try (intros []).
    destruct (isCurrentPlayer props v); [|discriminate].
    destruct (selectedCard st) as [sel|] eqn:Hs; [|discriminate].
    destruct (eqb (rank sel) (lit "8"%string)) eqn:E8; [discriminate|].
    injection Hact as ->. apply eqb_neq in E8.
    apply Hplay with sel; [reflexivity|]. intros E. contradiction.
Qed.

Lemma isCurrentPlayer_iff props g :
  isCurrentPlayer props g = true <->
  current_player_id g = Some (playerId props).
Proof. apply strict_eq_iff. Qed.

(** Nothing leaves the board of a viewer whose turn it is not. *)
Lemma other_viewer_sends_nothing props st g ev res :
  gameState st = Some g ->
  current_player_id g <> Some (playerId props) ->
  snd (dispatch props st ev res) = [].
Proof.
  intros Hg Hne. unfold dispatch.
  destruct (render props st) as [| |b] eqn:Hr; try reflexivity.
  apply render_board in Hr as (g' & _ & Hg' & Hdeck & Hact).
  assert (g' = g) by congruence. subst g'.
  assert (Hc : isCurrentPlayer props g = false).
  { destruct (isCurrentPlayer props g) eqn:E; [|reflexivity].
    apply isCurrentPlayer_iff in E. contradiction. }
  rewrite Hc in Hdeck, Hact. rewrite Hdeck, Hact.
  destruct ev; try reflexivity.
  destruct (nth_error (cards b) idx); reflexivity.
Qed.

(** C9: on every rendered board the draw-pile click handler is attached
    exactly when [current_player_id] is the viewing player's id, the
    play and declare-suit controls are rendered only then, and for any
    other viewer no event on the board sends a request. *)
Theorem board_offers_actions_only_to_current_player
        (props : Props) (st : State) (b : Board) :
  render props st = BoardScreen b ->
  exists g, gameState st = Some g /\
    (deck_onClick b <> None <->
     current_player_id g = Some (playerId props)) /\
    (actions b <> None -> current_player_id g = Some (playerId props)) /\
    (current_player_id g <> Some (playerId props) ->
     forall ev res, snd (dispatch props st ev res) = []).
Proof.
  intros Hr. pose proof (render_board _ _ Hr) as (g & _ & Hg & Hdeck & Hact).
  exists g. split; [assumption|]. rewrite <- isCurrentPlayer_iff.
  repeat split.
  - rewrite Hdeck. destruct (isCurrentPlayer props g); congruence.
  - intros E. rewrite Hdeck, E. discriminate.
  - rewrite Hact. destruct (isCurrentPlayer props g); congruence.
  - intros Hne ev res. apply other_viewer_sends_nothing with g; auto.
    now rewrite <- isCurrentPlayer_iff.
Qed.

Lemma board_offers_actions_only_to_current_player_witness :
  exists b, render sampleProps sampleBoard = BoardScreen b /\
  exists g, gameState sampleBoard = Some g /\
    (deck_onClick b <> None <->
     current_player_id g = Some (playerId sampleProps)) /\
    (actions b <> None ->
     current_player_id g = Some (playerId sampleProps)) /\
    (current_player_id g <> Some (playerId sampleProps) ->
     forall ev res, snd (dispatch sampleProps sampleBoard ev res) = []).
Proof.
  eexists. split; [reflexivity|].
  apply (@board_offers_actions_only_to_current_player
           sampleProps sampleBoard).
  reflexivity.
Defined.

End BoardControls.

(** ** The waiting room and the start request *)

Section StartOnClient.
Import JsString Wire Http Statements.

(** The Start Game button is rendered exactly when two players are
    listed. *)
Lemma start_button_iff_two_players (st : WaitingRoom.State) r :
  WaitingRoom.render st = WaitingRoom.RoomScreen r ->
  (WaitingRoom.start_button r <> None <->
   length (WaitingRoom.players st) = 2).
Proof.
  unfold WaitingRoom.render, WaitingRoom.isReady.
  destruct (WaitingRoom.loading st); [discriminate|].
  intros [= <-]. simpl.
  destruct (length (WaitingRoom.players st) =? 2) eqn:E.
  - apply Nat.eqb_eq in E. split; [auto|discriminate].
  - apply Nat.eqb_neq in E. split; [congruence|contradiction].
Qed.

Lemma failed_no_start gs sent e :
  (forall x, In x sent -> isStart x = false) ->
  In e (snd (App.failed gs sent)) -> isStart e = false.
Proof.
  intros Hs. unfold App.failed. simpl. rewrite in_app_iff. simpl.
  intros [H|[<-|[<-|[]]]]; auto.
Qed.

(** [handleStartGame] posts the start request only after a state read
    that succeeded and listed at least two players. *)
Lemma start_request_needs_two_players gameState stateResp startResp e :
  In e (snd (App.handleStartGame gameState stateResp startResp)) ->
  isStart e = true ->
  exists body ps, stateResp = Response true (Some body) /\
                  players (view body) = Some ps /\ 2 <= length ps.
Proof.
  unfold App.handleStartGame.
  destruct gameState as [gs|]; [|intros []].
  assert (Hread : forall x,
             In x [Fetch (GetState (App.gameId gs) (App.playerId gs))] ->
             isStart x = false).
  { intros x [<-|[]]. reflexivity. }
  destruct stateResp as [|[|] [body|]];
    try (intros H Hs; apply failed_no_start in H; [congruence|assumption]).
  - unfold App.tooFewPlayers.
    destruct (players (view body)) as [ps|] eqn:Hp.
    + destruct (length ps <? 2) eqn:Hl.
      * simpl. intros [<-|[<-|[]]]; discriminate.
      * intros _ _. exists body, ps. apply Nat.ltb_ge in Hl. auto.
    + simpl. intros [<-|[<-|[]]]; discriminate.
  - simpl. intros [<-|[<-|[]]]; discriminate.
Qed.

End StartOnClient.

(** ** The engine *)

Section EngineFacts.
Import Engine.

Lemma insertAt_length k c l : length (insertAt k c l) = S (length l).
Proof.
  unfold insertAt. rewrite length_app. simpl.
  rewrite <- (firstn_skipn k l) at 3. rewrite length_app. lia.
Qed.

Lemma insertAt_perm k c l : Permutation (insertAt k c l) (c :: l).
Proof.
  unfold insertAt. symmetry.
  rewrite <- (firstn_skipn k l) at 1. apply Permutation_middle.
Qed.

(** A shuffle reorders the cards and loses none. *)
Lemma shuffle_perm seed l : Permutation (shuffle seed l) l.
Proof.
  revert seed. induction l as [|c l IH]; intros seed; simpl.
  - constructor.
  - rewrite insertAt_perm. constructor. apply IH.
Qed.

Lemma shuffle_length seed l : length (shuffle seed l) = length l.
Proof. apply Permutation_length, shuffle_perm. Qed.

Lemma newShuffledDeck_length seed : length (newShuffledDeck seed) = 52.
Proof. unfold newShuffledDeck. rewrite shuffle_length. reflexivity. Qed.

Lemma draw_some n deck cs rest :
  draw n deck = Some (cs, rest) ->
  length cs = n /\ length cs + length rest = length deck.
Proof.
  unfold draw. destruct (length deck <? n) eqn:E; [discriminate|].
  apply Nat.ltb_ge in E. intros [= <- <-].
  rewrite length_firstn, length_skipn. lia.
Qed.

Lemma handTotal_app ps qs : handTotal (ps ++ qs) = handTotal ps + handTotal qs.
Proof.
  unfold handTotal. now rewrite map_app, list_sum_app.
Qed.

Lemma handTotal_setHand i h ps p :
  nth_error ps i = Some p ->
  handTotal (setHand i h ps) + length (hand p) = handTotal ps + length h.
Proof.
  revert i. induction ps as [|q ps IH]; intros [|i] H; simpl in H;
    try discriminate.
  - injection H as ->. unfold handTotal. simpl. lia.
  - specialize (IH _ H). unfold handTotal in *. simpl. lia.
Qed.

Lemma setHand_length i h ps : length (setHand i h ps) = length ps.
Proof.
  revert i. induction ps as [|q ps IH]; intros [|i]; simpl; auto.
Qed.

Lemma removeCard_length c h :
  hasCard c h = true -> S (length (removeCard c h)) = length h.
Proof.
  unfold hasCard. induction h as [|x h IH]; simpl; [discriminate|].
  destruct (cardEqb c x); simpl; [reflexivity|].
  intros H. now rewrite IH.
Qed.

Lemma deal_conserves n ps deck ps' deck' :
  deal n ps deck = Some (ps', deck') ->
  handTotal ps' + length deck' = handTotal ps + length deck /\
  length ps' = length ps.
Proof.
  revert deck ps' deck'. induction ps as [|p ps IH]; intros deck ps' deck';
    simpl.
  - intros [= <- <-]. auto.
  - destruct (draw n deck) as [[cs d1]|] eqn:Hd; [|discriminate].
    destruct (deal n ps d1) as [[ps1 d2]|] eqn:Hr; [|discriminate].
    intros [= <- <-]. apply draw_some in Hd as [_ Hd].
    apply IH in Hr as [Hr Hl]. unfold handTotal in *. simpl.
    rewrite length_app. split; lia.
Qed.

Lemma removelast_length (d : list Card) :
  d <> [] -> S (length (removelast d)) = length d.
Proof.
  intros H. destruct (exists_last H) as (l & a & ->).
  rewrite removelast_last, length_app. simpl. lia.
Qed.

(** *** Running the operations *)

Ltac run := unfold bind, get, put, guard, ret, fail in *; simpl in *.

Lemma turnOf_cases playerId g :
  (exists p, turnOf playerId g = (g, Ok p) /\ state g = ACTIVE /\
             currentPlayer g = Some p /\ id p = playerId) \/
  (exists e, turnOf playerId g = (g, Err e) /\
             ((e = InvalidState /\ state g <> ACTIVE) \/
              (e = NotYourTurn /\ state g = ACTIVE /\
               currentPlayerId g <> Some playerId))).
Proof.
  unfold turnOf, currentPlayerId. run.
  destruct (state g) eqn:Es; simpl;
    try (right; eexists; split; [reflexivity|left; split; congruence]).
  destruct (currentPlayer g) as [p|] eqn:Ep; simpl.
  - destruct (id p =? playerId) eqn:E; simpl.
    + apply Nat.eqb_eq in E. left. exists p. auto.
    + apply Nat.eqb_neq in E. right. eexists. split; [reflexivity|].
      right. repeat split. congruence.
  - right. eexists. split; [reflexivity|]. right. repeat split. discriminate.
Qed.

Lemma legality_keeps_game g0 card ds g :
  fst (legality g0 card ds g) = g.
Proof.
  unfold legality. run.
  destruct (rankEqb (rank card) R8).
  - destruct ds; reflexivity.
  - destruct (activeSuit g0).
    + destruct (suitEqb (suit card) s); reflexivity.
    + destruct (topCard g0) as [t|]; [|reflexivity].
      destruct (suitEqb (suit card) (suit t) || rankEqb (rank card) (rank t));
        reflexivity.
Qed.

Lemma play_cases playerId card ds g :
  (exists e, play playerId card ds g = (g, Err e)) \/
  (exists g', play playerId card ds g = (g', Ok tt) /\
              state g = ACTIVE /\ state g' <> WAITING /\ Statements.keeps g g').
Proof.
  destruct (play playerId card ds g) as [g' o] eqn:Hp.
  unfold play, bind in Hp.
  destruct (turnOf_cases playerId g)
    as [(p & Ht & Hs & Hc & Hid)|(e & Ht & _)]; rewrite Ht in Hp;
    [|injection Hp as <- <-; left; exists e; reflexivity].
  unfold get, guard in Hp.
  destruct (hasCard card (hand p)) eqn:Hh; unfold ret, fail in Hp;
    [|injection Hp as <- <-; left; eexists; reflexivity].
  pose proof (legality_keeps_game g card ds g) as Hk.
  destruct (legality g card ds g) as [g1 [s|e]]; simpl in Hk; subst g1;
    [|injection Hp as <- <-; left; exists e; reflexivity].
  pose proof (removeCard_length _ _ Hh) as Hlen.
  pose proof (handTotal_setHand (currentPlayerIndex g)
                (removeCard card (hand p)) _ Hc) as Hsum.
  right. destruct (removeCard card (hand p)) as [|x h'] eqn:Hr;
    unfold put in Hp; injection Hp as <- <-;
    (eexists; split; [reflexivity|]); unfold Statements.keeps, cardCount; simpl;
    rewrite length_app, setHand_length; simpl in *;
    (split; [assumption|]); (split; [congruence|]);
    (split; [lia|]); auto.
Qed.

Lemma replenish_cases seed g :
  replenish seed g = (g, Err DeckExhausted) \/
  (exists g', replenish seed g = (g', Ok tt) /\
              drawPile g' <> [] /\ Statements.keeps g g' /\
              players g' = players g /\ state g' = state g /\
              currentPlayerIndex g' = currentPlayerIndex g).
Proof.
  unfold replenish. run.
  destruct (drawPile g) as [|d ds] eqn:Hd.
  - destruct (removelast (discardPile g)) as [|c rest] eqn:Hrl;
      [left; reflexivity|].
    destruct (topCard g) as [top|] eqn:Htop; [|left; reflexivity].
    right. eexists. split; [reflexivity|]. simpl.
    assert (Hne : discardPile g <> []).
    { intros E. rewrite E in Hrl. discriminate. }
    pose proof (removelast_length Hne) as Hl. rewrite Hrl in Hl.
    split.
    { intros E. apply (f_equal (@length Card)) in E.
      rewrite insertAt_length in E. discriminate. }
    unfold Statements.keeps, cardCount. simpl.
    rewrite insertAt_length, shuffle_length, Hd.
    simpl in *. repeat split; lia.
  - right. exists g. rewrite Hd. unfold Statements.keeps.
    repeat split; auto. discriminate.
Qed.

Lemma drawCard_cases playerId seed g :
  (exists e, drawCard playerId seed g = (g, Err e)) \/
  (exists g', drawCard playerId seed g = (g', Ok tt) /\
              state g = ACTIVE /\ state g' <> WAITING /\ Statements.keeps g g').
Proof.
  destruct (drawCard playerId seed g) as [g' o] eqn:Hp.
  unfold drawCard, bind in Hp.
  destruct (turnOf_cases playerId g)
    as [(p & Ht & Hs & Hc & Hid)|(e & Ht & _)]; rewrite Ht in Hp;
    [|injection Hp as <- <-; left; exists e; reflexivity].
  destruct (replenish_cases seed g)
    as [Hr|(g1 & Hr & Hne & (Hcnt & Hlen & Hgid) & Hps & Hst & Hidx)];
    rewrite Hr in Hp;
    [injection Hp as <- <-; left; eexists; reflexivity|].
  unfold get in Hp.
  destruct (drawPile g1) as [|c rest] eqn:Hd; [contradiction|].
  unfold put in Hp. injection Hp as <- <-.
  right. eexists. split; [reflexivity|].
  rewrite Hidx.
  assert (Hc1 : nth_error (players g1) (currentPlayerIndex g) = Some p).
  { rewrite Hps. exact Hc. }
  pose proof (handTotal_setHand (currentPlayerIndex g) (hand p ++ [c])
                _ Hc1) as Hsum.
  rewrite length_app in Hsum. simpl in Hsum.
  unfold Statements.keeps, cardCount in *. simpl. rewrite setHand_length.
  rewrite Hd in Hcnt. simpl in Hcnt.
  split; [assumption|]. split; [congruence|].
  repeat split; try lia. 
Qed.

Lemma join_cases nm g :
  (exists e, join nm g = (g, Err e)) \/
  (exists g' pid, join nm g = (g', Ok pid) /\
                  state g = WAITING /\ state g' = WAITING /\
                  cardCount g' = cardCount g /\
                  length (players g) < 2 /\
                  length (players g') = S (length (players g))).
Proof.
  unfold join. run.
  destruct (state g) eqn:Es; simpl; try (left; eexists; reflexivity).
  destruct (length (players g) <? 2) eqn:El; simpl;
    [|left; eexists; reflexivity].
  apply Nat.ltb_lt in El.
  right. do 2 eexists. split; [reflexivity|]. simpl.
  unfold cardCount. simpl. rewrite handTotal_app, length_app. simpl.
  unfold handTotal at 2. simpl. repeat split; auto; lia.
Qed.

Lemma start_cases seed g :
  (start seed g = (g, Ok tt) /\ state g <> WAITING) \/
  (exists e, start seed g = (g, Err e) /\ state g = WAITING /\
             (length (players g) < 2 -> e = NotEnoughPlayers)) \/
  (exists g', start seed g = (g', Ok tt) /\
              state g = WAITING /\ state g' = ACTIVE /\
              2 <= length (players g) /\
              cardCount g' = handTotal (players g) + 52 /\
              length (players g') = length (players g)).
Proof.
  destruct (start seed g) as [g' o] eqn:Hp.
  unfold start, bind, get in Hp.
  destruct (state g) eqn:Es; cbn [isWaiting] in Hp;
    try (unfold ret in Hp; injection Hp as <- <-;
         left; split; [reflexivity|discriminate]).
  right. unfold guard in Hp.
  destruct (2 <=? length (players g)) eqn:El; unfold ret, fail in Hp.
  - apply Nat.leb_le in El.
    destruct (deal 7 (players g) (newShuffledDeck seed))
      as [[ps [|top rest]]|] eqn:Hd;
      try (injection Hp as <- <-; left; eexists;
           split; [reflexivity|]; split; [reflexivity|lia]).
    unfold put in Hp. injection Hp as <- <-.
    right. eexists. split; [reflexivity|]. simpl.
    apply deal_conserves in Hd as [Hd Hl].
    rewrite newShuffledDeck_length in Hd. simpl in Hd.
    unfold cardCount. simpl. repeat split; auto; lia.
  - apply Nat.leb_gt in El. injection Hp as <- <-.
    left. eexists. split; [reflexivity|]. auto.
Qed.

(** No error corrupts the game: a rejected command leaves it as it
    was. *)
Lemma rejected_leaves_game c g :
  (match c with
   | Join nm => exists e, snd (join nm g) = Err e
   | Start seed => exists e, snd (start seed g) = Err e
   | Play p card ds => exists e, snd (play p card ds g) = Err e
   | DrawCard p seed => exists e, snd (drawCard p seed g) = Err e
   end) ->
  exec c g = g.
Proof.
  destruct c as [nm|seed|p card ds|p seed]; simpl; intros [e He].
  - destruct (join_cases nm g) as [(e' & H)|(g' & pid & H & _)];
      rewrite H in *; [reflexivity|discriminate].
  - destruct (start_cases seed g) as [[H _]|[(e' & H & _)|(g' & H & _)]];
      rewrite H in *; try reflexivity; discriminate.
  - destruct (play_cases p card ds g) as [(e' & H)|(g' & H & _)];
      rewrite H in *; [reflexivity|discriminate].
  - destruct (drawCard_cases p seed g) as [(e' & H)|(g' & H & _)];
      rewrite H in *; [reflexivity|discriminate].
Qed.

(** *** Conservation of cards *)

Lemma created_consistent n : Statements.consistent (createGame n).
Proof. unfold Statements.consistent. simpl. split; [lia|reflexivity]. Qed.

Lemma exec_consistent c g :
  Statements.consistent g -> Statements.consistent (exec c g).
Proof.
  unfold Statements.consistent. intros [Hl Hc].
  destruct c as [nm|seed|p card ds|p seed]; simpl.
  - destruct (join_cases nm g)
      as [(e & H)|(g' & pid & H & Hs & Hs' & Hk & Hlt & Hl')];
      rewrite H; simpl; [auto|].
    rewrite Hs', Hk, Hc, Hs. split; [lia|reflexivity].
  - destruct (start_cases seed g)
      as [[H _]|[(e & H & _)|(g' & H & Hs & Hs' & H2 & Hk & Hl')]];
      rewrite H; simpl; auto.
    rewrite Hs', Hk, Hl'. rewrite Hs in Hc. unfold cardCount in Hc.
    split; [assumption|lia].
  - destruct (play_cases p card ds g)
      as [(e & H)|(g' & H & Hs & Hs' & Hk & Hl' & _)];
      rewrite H; simpl; [auto|].
    rewrite Hk, Hl', Hc, Hs. split; [assumption|].
    destruct (state g'); congruence.
  - destruct (drawCard_cases p seed g)
      as [(e & H)|(g' & H & Hs & Hs' & Hk & Hl' & _)];
      rewrite H; simpl; [auto|].
    rewrite Hk, Hl', Hc, Hs. split; [assumption|].
    destruct (state g'); congruence.
Qed.

Lemma execAll_consistent cs g :
  Statements.consistent g -> Statements.consistent (execAll cs g).
Proof.
  revert g. induction cs as [|c cs IH]; intros g H; simpl; [assumption|].
  apply IH, exec_consistent, H.
Qed.

Lemma reached_consistent n cs :
  Statements.consistent (Statements.reached n cs).
Proof. apply execAll_consistent, created_consistent. Qed.

(** Once the cards are dealt, no operation changes their number or takes
    the game back to WAITING. *)
Lemma exec_keeps_count c g :
  state g <> WAITING ->
  cardCount (exec c g) = cardCount g /\ state (exec c g) <> WAITING.
Proof.
  intros Hs. destruct c as [nm|seed|p card ds|p seed]; simpl.
  - destruct (join_cases nm g) as [(e & H)|(g' & pid & H & Hw & _)];
      rewrite H; simpl; [auto|contradiction].
  - destruct (start_cases seed g)
      as [[H _]|[(e & H & _)|(g' & H & Hw & _)]];
      rewrite H; simpl; auto; contradiction.
  - destruct (play_cases p card ds g)
      as [(e & H)|(g' & H & _ & Hs' & Hk & _)]; rewrite H; simpl; auto.
  - destruct (drawCard_cases p seed g)
      as [(e & H)|(g' & H & _ & Hs' & Hk & _)]; rewrite H; simpl; auto.
Qed.

(** C2: in every game reached from a freshly created one by any sequence
    of join, start, play and drawCard, the draw pile, the discard pile and
    the hands hold 52 cards together once the cards are dealt, and from
    then on no operation changes that number. *)
Theorem card_conservation (n : nat) (cs : list Command) :
  let g := Statements.reached n cs in
  (state g <> WAITING -> cardCount g = 52) /\
  (forall c, state g <> WAITING ->
             cardCount (exec c g) = cardCount g /\
             cardCount (exec c g) = 52).
Proof.
  intros g.
  assert (H52 : state g <> WAITING -> cardCount g = 52).
  { intros Hs. destruct (reached_consistent n cs) as [_ Hc].
    fold g in Hc. rewrite Hc. destruct (state g); congruence. }
  split; [assumption|].
  intros c Hs. destruct (@exec_keeps_count c g Hs) as [Hk _].
  split; [assumption|]. rewrite Hk. auto.
Qed.

Lemma card_conservation_witness :
  cardCount (Statements.reached 1 Statements.sampleSession) = 52 /\
  cardCount (exec (Play 2 {| rank := R8; suit := Spades |} (Some Hearts))
                  (Statements.reached 1 Statements.sampleSession)) = 52.
Proof.
  split.
  - apply (card_conservation 1 Statements.sampleSession).
    vm_compute. discriminate.
  - apply (card_conservation 1 Statements.sampleSession).
    vm_compute. discriminate.
Defined.

(** *** Turns *)

Lemma turnOf_other g playerId cid :
  state g = ACTIVE -> currentPlayerId g = Some cid -> playerId <> cid ->
  turnOf playerId g = (g, Err NotYourTurn).
Proof.
  intros Hs Hc Hne.
  destruct (turnOf_cases playerId g)
    as [(p & _ & _ & Hp & Hid)|(e & Ht & [[_ Hn]|[-> _]])].
  - unfold currentPlayerId in Hc. rewrite Hp in Hc. simpl in Hc. congruence.
  - contradiction.
  - exact Ht.
Qed.

(** C5: in an ACTIVE game, a play or a draw by a player whose id is not
    the current player's fails with NotYourTurn and returns the game
    unchanged in every field. *)
Theorem out_of_turn_rejected_atomically
        (g : Game) (playerId cid : nat) (card : Card)
        (ds : option Suit) (seed : list nat) :
  state g = ACTIVE ->
  currentPlayerId g = Some cid ->
  playerId <> cid ->
  play playerId card ds g = (g, Err NotYourTurn) /\
  drawCard playerId seed g = (g, Err NotYourTurn).
Proof.
  intros Hs Hc Hne. pose proof (@turnOf_other g playerId cid Hs Hc Hne) as Ht.
  unfold play, drawCard, bind. rewrite Ht. split; reflexivity.
Qed.

Lemma out_of_turn_rejected_atomically_witness :
  play 2 {| rank := R5; suit := Diamonds |} None Statements.sampleDealt
  = (Statements.sampleDealt, Err NotYourTurn) /\
  drawCard 2 [] Statements.sampleDealt
  = (Statements.sampleDealt, Err NotYourTurn).
Proof.
  apply (@out_of_turn_rejected_atomically Statements.sampleDealt 2 1).
  - reflexivity.
  - reflexivity.
  - discriminate.
Defined.

Lemma turnOf_current g p :
  state g = ACTIVE -> currentPlayer g = Some p ->
  turnOf (id p) g = (g, Ok p).
Proof.
  intros Hs Hc.
  destruct (turnOf_cases (id p) g)
    as [(q & Ht & _ & Hq & _)|(e & _ & [[_ Hn]|[_ [_ Hn]]])].
  - congruence.
  - contradiction.
  - unfold currentPlayerId in Hn. rewrite Hc in Hn. contradiction.
Qed.

(** *** Eights *)

(** An eight played without a declared suit is rejected, and the game is
    left as it was. *)
Lemma eight_without_suit_rejected g p card :
  state g = ACTIVE -> currentPlayer g = Some p ->
  hasCard card (hand p) = true -> rank card = R8 ->
  play (id p) card None g = (g, Err MissingDeclaredSuit).
Proof.
  intros Hs Hc Hh H8. unfold play, bind.
  rewrite (@turnOf_current g p Hs Hc). unfold get, guard.
  rewrite Hh. unfold ret, legality. rewrite H8. reflexivity.
Qed.

(** *** Start *)

Lemma start_too_few g seed :
  state g = WAITING -> length (players g) < 2 ->
  start seed g = (g, Err NotEnoughPlayers).
Proof.
  intros Hs Hl.
  destruct (start_cases seed g)
    as [[_ Hn]|[(e & H & _ & He)|(g' & _ & _ & _ & H2 & _)]].
  - contradiction.
  - rewrite H, (He Hl). reflexivity.
  - lia.
Qed.

Lemma start_deals_only_to_two n cs seed :
  fst (start seed (Statements.reached n cs)) <> Statements.reached n cs ->
  state (Statements.reached n cs) = WAITING /\
  length (players (Statements.reached n cs)) = 2.
Proof.
  destruct (reached_consistent n cs) as [Hl _].
  intros Hne.
  destruct (start_cases seed (Statements.reached n cs))
    as [[H _]|[(e & H & _)|(g' & _ & Hs & _ & H2 & _)]].
  - rewrite H in Hne. contradiction.
  - rewrite H in Hne. contradiction.
  - split; [assumption|lia].
Qed.

Lemma draw_enough n deck :
  n <= length deck -> draw n deck = Some (firstn n deck, skipn n deck).
Proof.
  intros H. unfold draw.
  destruct (length deck <? n) eqn:E; [|reflexivity].
  apply Nat.ltb_lt in E. lia.
Qed.

(** With two players seated, start deals seven cards to each, flips one
    card and hands the turn to the first player. *)
Lemma start_with_two_players g seed :
  state g = WAITING -> length (players g) = 2 ->
  exists g', start seed g = (g', Ok tt) /\ state g' = ACTIVE /\
             length (drawPile g') = 37 /\ length (discardPile g') = 1 /\
             currentPlayerIndex g' = 0 /\
             map (fun p => length (hand p)) (players g')
             = map (fun p => length (hand p) + 7) (players g).
Proof.
  intros Hs Hl. unfold start, bind, get, guard. rewrite Hs, Hl. simpl.
  destruct (players g) as [|p1 [|p2 [|p3 ps]]]; try discriminate.
  pose proof (newShuffledDeck_length seed) as Hd.
  set (deck := newShuffledDeck seed) in *. clearbody deck.
  unfold ret. cbn [deal].
  rewrite (@draw_enough 7 deck) by lia.
  assert (H1 : length (skipn 7 deck) = 45) by (rewrite length_skipn; lia).
  rewrite (@draw_enough 7 (skipn 7 deck)) by lia.
  assert (H2 : length (skipn 7 (skipn 7 deck)) = 38)
    by (rewrite length_skipn; lia).
  destruct (skipn 7 (skipn 7 deck)) as [|top rest]; [discriminate|].
  eexists. split; [reflexivity|].
  cbn [state drawPile discardPile currentPlayerIndex players map hand].
  rewrite !length_app, !length_firstn, Hd, H1.
  simpl in H2 |- *. repeat split; lia.
Qed.

(** *** The scenarios of the specification *)

(** Scenario 1: a third join fails with GameFull. *)
Example scenario_third_join :
  snd (join "Carol"%string (Statements.reached 1 Statements.seated))
  = Err GameFull.
Proof. reflexivity. Qed.

(** Scenario 2: after the deal each hand has 7 cards, the draw pile 37 and
    the discard pile 1. *)
Example scenario_deal :
  map (fun p => length (hand p)) (players Statements.sampleDealt) = [7; 7] /\
  length (drawPile Statements.sampleDealt) = 37 /\
  length (discardPile Statements.sampleDealt) = 1.
Proof. vm_compute. auto. Qed.

(** Scenario 3: a play out of turn, an illegal play, and a play that matches
    the top card in rank. *)
Example scenario_rank_match :
  snd (play 2 (Statements.mk R5 Diamonds) None Statements.scenarioTable)
  = Err NotYourTurn /\
  snd (play 1 (Statements.mk R5 Diamonds) None Statements.scenarioTable)
  = Err IllegalMove /\
  let g := fst (play 1 (Statements.mk R7 Diamonds) None
                     Statements.scenarioTable) in
  topCard g = Some (Statements.mk R7 Diamonds) /\ currentPlayerId g = Some 2.
Proof. vm_compute. auto. Qed.

(** Scenario 4: an eight sets the active suit, which the next play must
    follow and which a play of another rank clears. *)
Example scenario_eight :
  let g1 := fst (play 1 (Statements.mk R7 Diamonds) None
                      Statements.scenarioTable) in
  let g2 := fst (play 2 (Statements.mk R8 Spades) (Some Hearts) g1) in
  activeSuit g2 = Some Hearts /\
  snd (play 1 (Statements.mk R9 Clubs) None g2) = Err IllegalMove /\
  play 1 (Statements.mk R9 Clubs) None g2
  = (g2, Err IllegalMove) /\
  activeSuit (fst (play 1 (Statements.mk R3 Hearts) None g2)) = None.
Proof. vm_compute. auto. Qed.

(** Scenario 5: the play of a last card finishes the game, and a draw that
    follows fails with InvalidState. *)
Example scenario_win :
  let g1 := fst (play 1 Statements.eightOfSpades (Some Clubs)
                      Statements.eightInHand) in
  let g2 := fst (play 2 (Statements.mk RQ Clubs) None g1) in
  state g2 = FINISHED /\ winnerId g2 = Some 2 /\
  snd (drawCard 1 [] g2) = Err InvalidState.
Proof. vm_compute. auto. Qed.

End EngineFacts.

(** ** Client and engine together *)

Section ClientAndEngine.
Import JsString Wire Http Statements.

(** C4: an eight of the wire format is submitted without a declared
    suit.  For each of the four suits, when the server deals the viewer the
    eight of that suit and the viewer clicks it, the card on the board has
    the whole string as its rank, the board renders the Play Card button
    and no suit selector, and a click on Play Card posts the eight with
    [declared_suit = null]. *)
Theorem wire_eight_sent_without_suit :
  Forall (fun s =>
            GameBoard.selectedCard (boardWithEight s)
            = Some {| GameBoard.rank := lit "8"%string ++ s;
                      GameBoard.suit := [] |} /\
            actionsOf viewerProps (boardWithEight s)
            = Some (GameBoard.PlayCardButton GameBoard.HandlePlayCard) /\
            snd (GameBoard.dispatch viewerProps (boardWithEight s)
                                    GameBoard.ClickPlayCard
                                    (Response true None))
            = [Fetch (PostPlay (lit "g1"%string) (lit "p1"%string)
                               {| card := lit "8"%string ++ s;
                                  declared_suit := None |})])
         unicodeSuits.
Proof.
  repeat constructor.
Qed.

(** C6: the engine deals only from WAITING with exactly two players
    seated, where start succeeds; with fewer than two seated it fails with
    NotEnoughPlayers.  The waiting room renders the Start Game button
    exactly when two players are listed, and [handleStartGame] posts no
    start request when the state it has just read lists fewer than two
    players or none. *)
Theorem start_requires_two_players :
  (forall n cs seed,
      fst (Engine.start seed (reached n cs)) <> reached n cs ->
      Engine.state (reached n cs) = Engine.WAITING /\
      length (Engine.players (reached n cs)) = 2) /\
  (forall g seed,
      Engine.state g = Engine.WAITING ->
      length (Engine.players g) = 2 ->
      exists g', Engine.start seed g = (g', Engine.Ok tt) /\
                 Engine.state g' = Engine.ACTIVE) /\
  (forall g seed,
      Engine.state g = Engine.WAITING ->
      length (Engine.players g) < 2 ->
      Engine.start seed g = (g, Engine.Err Engine.NotEnoughPlayers)) /\
  (forall st r,
      WaitingRoom.render st = WaitingRoom.RoomScreen r ->
      (WaitingRoom.start_button r <> None <->
       length (WaitingRoom.players st) = 2)) /\
  (forall gameState body startResp e,
      (forall ps, players (view body) = Some ps -> length ps < 2) ->
      In e (snd (App.handleStartGame gameState (Response true (Some body))
                                     startResp)) ->
      isStart e = false).
Proof.
  split; [|split; [|split; [|split]]].
  - apply start_deals_only_to_two.
  - intros g seed Hs Hl.
    destruct (@start_with_two_players g seed Hs Hl) as (g' & H & Ha & _).
    exists g'. auto.
  - apply start_too_few.
  - apply start_button_iff_two_players.
  - intros gameState body startResp e Hfew Hin.
    destruct (isStart e) eqn:E; [|reflexivity].
    destruct (start_request_needs_two_players _ _ _ _ Hin E)
      as (body' & ps & [= <-] & Hp & Hl).
    specialize (Hfew ps Hp). lia.
Qed.

Lemma start_requires_two_players_witness :
  (Engine.state (reached 1 seated) = Engine.WAITING /\
   length (Engine.players (reached 1 seated)) = 2) /\
  (exists g', Engine.start sampleSeed (reached 1 seated)
              = (g', Engine.Ok tt) /\
              Engine.state g' = Engine.ACTIVE) /\
  Engine.start sampleSeed sampleAlone
  = (sampleAlone, Engine.Err Engine.NotEnoughPlayers) /\
  (exists r, WaitingRoom.render sampleRoom = WaitingRoom.RoomScreen r /\
             (WaitingRoom.start_button r <> None <->
              length (WaitingRoom.players sampleRoom) = 2)) /\
  Forall (fun e => isStart e = false)
         (snd (App.handleStartGame (Some sampleApp) onePlayerRead
                                   (Response true None))).
Proof.
  destruct start_requires_two_players as (H1 & H2 & H3 & H4 & H5).
  split; [|split; [|split; [|split]]].
  - apply (H1 1 seated sampleSeed).
    intros E. apply (f_equal Engine.state) in E. vm_compute in E.
    discriminate.
  - apply (H2 (reached 1 seated) sampleSeed); reflexivity.
  - apply (H3 sampleAlone sampleSeed); [reflexivity|].
    vm_compute. lia.
  - eexists. split; [reflexivity|].
    apply (H4 sampleRoom). reflexivity.
  - apply Forall_forall. intros e.
    apply (H5 (Some sampleApp)).
    intros ps [= <-]. simpl. lia.
Defined.

End ClientAndEngine.

(** ** More on strings and cards *)

Section MoreStrings.
Import JsString Wire Http GameBoard Statements.

Lemma startsWith_app (s post : jsstring) : startsWith (s ++ post) s = true.
Proof.
induction s as [|c s IH]; simpl; [apply startsWith_nil|].
now rewrite N.eqb_refl, IH.
Qed.


(** A prefix that lacks the first code unit of the pattern holds no
    occurrence of it. *)
Lemma includes_skip (pre rest : jsstring) (p : N) (t : jsstring) :
  ~ In p pre -> includes (pre ++ rest) (p :: t) = includes rest (p :: t).
Proof.
induction pre as [|c pre IH]; intros Hn; [reflexivity|].
simpl in Hn. simpl app. cbn [includes startsWith].
assert (Hc : N.eqb p c = false) by (apply N.eqb_neq; intuition congruence).
rewrite Hc. simpl. apply IH. tauto.
Qed.

Lemma replace_skip (pre rest : jsstring) (p : N) (t rep : jsstring) :
  ~ In p pre ->
  replace (pre ++ rest) (p :: t) rep = pre ++ replace rest (p :: t) rep.
Proof.
induction pre as [|c pre IH]; intros Hn; [reflexivity|].
simpl in Hn. simpl app. cbn [replace startsWith].
assert (Hc : N.eqb p c = false) by (apply N.eqb_neq; intuition congruence).
rewrite Hc. simpl. f_equal. apply IH. tauto.
Qed.

Lemma includes_absent (post : jsstring) (p : N) (t : jsstring) :
  ~ In p post -> includes post (p :: t) = false.
Proof.
intros Hn. rewrite <- (app_nil_r post), includes_skip by assumption.
reflexivity.
Qed.

Lemma replace_prefix (s post rep : jsstring) :
  replace (s ++ post) s rep = rep ++ post.
Proof.
destruct s as [|c s].
- simpl. destruct post; reflexivity.
- pose proof (startsWith_app (c :: s) post) as H. simpl app in *.
  cbn [replace]. rewrite H. f_equal. cbn [length skipn].
  rewrite skipn_app, skipn_all, Nat.sub_diag. reflexivity.
Qed.

(** Without an occurrence of the pattern, [replace] returns the string
    itself. *)
Lemma replace_no_match (s p rep : jsstring) :
  includes s p = false -> replace s p rep = s.
Proof.
induction s as [|c s IH]; simpl; intros H.
- apply orb_false_iff in H as [H _]. now rewrite H.
- apply orb_false_iff in H as [H1 H2]. rewrite H1. f_equal. auto.
Qed.


Lemma suits_shape (s : jsstring) :
  In s suits -> exists x, s = [8218; 244; x]%N /\ x <> 8218%N.
Proof.
intros H. simpl in H.
repeat (destruct H as [<-|H]; [eexists; split; [reflexivity|discriminate]|]).
destruct H.
Qed.

(** In a table entry followed by text without U+201A, the only table entry
    that occurs is that entry. *)
Lemma includes_entry (s t post : jsstring) :
  In s suits -> In t suits -> ~ In 8218%N post ->
  includes (s ++ post) t = eqb s t.
Proof.
intros Hs Ht Hp. simpl in Hs, Ht.
repeat (destruct Hs as [<-|Hs]; [|]); try (destruct Hs);
  (repeat (destruct Ht as [<-|Ht]; [|]); try (destruct Ht));
  simpl; rewrite ?startsWith_nil;
  repeat rewrite (@includes_absent post 8218%N _ Hp); reflexivity.
Qed.

Lemma find_entry (pre s post : jsstring) :
  In s suits -> ~ In 8218%N pre -> ~ In 8218%N post ->
  find (fun t => includes (pre ++ s ++ post) t) suits = Some s.
Proof.
intros Hs Hpre Hpost.
assert (H : forall t, In t suits ->
                      includes (pre ++ s ++ post) t = eqb s t).
{ intros t Ht. destruct (suits_shape Ht) as (x & -> & _).
  rewrite includes_skip by assumption. now apply includes_entry. }
unfold suits in *. cbn [find].
rewrite !H by (simpl; tauto).
simpl in Hs.
repeat (destruct Hs as [<-|Hs]; [reflexivity|]). destruct Hs.
Qed.

(** X1: [parseCard] finds a suit of its table wherever it stands in the
    card string: when the text before and after the suit holds no U+201A
    (the code unit every table entry starts with), the suit is that entry
    and the rank is the text before followed by the text after. *)
Theorem parseCard_splits_anywhere (pre s post : jsstring) :
  In s suits -> ~ In 8218%N pre -> ~ In 8218%N post ->
  parseCard (pre ++ s ++ post) = {| rank := pre ++ post; suit := s |}.
Proof.
intros Hs Hpre Hpost.
destruct (suits_shape Hs) as (x & E & _).
rewrite parseCard_long
  by (rewrite !length_app, E; simpl; lia).
rewrite find_entry by assumption. cbv zeta.
f_equal. rewrite E, replace_skip by assumption.
now rewrite <- E, replace_prefix.
Qed.

Lemma parseCard_splits_anywhere_witness :
  parseCard (lit "10"%string ++ [8218; 244; 163]%N ++ [])
  = {| rank := lit "10"%string ++ []; suit := [8218; 244; 163]%N |} /\
  parseCard ([] ++ [8218; 244; 8224]%N ++ lit "Q"%string)
  = {| rank := [] ++ lit "Q"%string; suit := [8218; 244; 8224]%N |}.
Proof.
split.
- apply (@parseCard_splits_anywhere (lit "10"%string) [8218; 244; 163]%N []).
  + simpl. tauto.
  + simpl. intros [H|[H|[]]]; discriminate.
  + simpl. tauto.
- apply (@parseCard_splits_anywhere [] [8218; 244; 8224]%N (lit "Q"%string)).
  + simpl. tauto.
  + simpl. tauto.
  + simpl. intros [H|[]]; discriminate.
Defined.



Lemma eqb_sym (a b : jsstring) : eqb a b = eqb b a.
Proof.
destruct (eqb a b) eqn:E.
- apply eqb_eq in E. subst. symmetry. apply eqb_refl.
- apply eqb_neq in E. symmetry. apply eqb_neq. congruence.
Qed.

(** X3: [cardsEqual] is symmetric, true of a card and itself, and false
    as soon as one side is null: null is not equal to null. *)
Theorem cardsEqual_symmetric_null_false (a b : option Card) :
  cardsEqual a b = cardsEqual b a /\
  (a = None \/ b = None -> cardsEqual a b = false) /\
  (forall c, a = Some c -> b = Some c -> cardsEqual a b = true).
Proof.
split; [|split].
- destruct a as [a|], b as [b|]; simpl; try reflexivity.
  now rewrite (eqb_sym (rank a)), (eqb_sym (suit a)).
- intros [-> | ->]; [reflexivity|]. destruct a; reflexivity.
- intros c -> ->. simpl. now rewrite !eqb_refl.
Qed.

Lemma cardsEqual_symmetric_null_false_witness :
  cardsEqual None None = false /\
  cardsEqual (Some sampleEight) (Some sampleEight) = true.
Proof.
split.
- apply (@cardsEqual_symmetric_null_false None None). left. reflexivity.
- apply (@cardsEqual_symmetric_null_false (Some sampleEight)
                                          (Some sampleEight));
    reflexivity.
Defined.

(** *** The backend addresses *)

(** X4: when the backend URL starts with http, the socket URL is the same
    text with that first http turned into ws, so http:// becomes ws:// and
    https:// becomes wss://, whatever follows; with the variable unset or
    empty the socket URL is ws://localhost:8000.  The dev proxy computes
    its socket target the same way. *)
Theorem ws_url_from_http (rest : jsstring) :
  Config.WS_BASE_URL (Some (lit "http"%string ++ rest))
  = lit "ws"%string ++ rest /\
  Config.WS_BASE_URL (Some (lit "https://"%string ++ rest))
  = lit "wss://"%string ++ rest /\
  Config.WS_BASE_URL None = lit "ws://localhost:8000"%string /\
  Config.WS_BASE_URL (Some []) = lit "ws://localhost:8000"%string /\
  Config.backendWsUrl (Some (lit "http"%string ++ rest))
  = Config.WS_BASE_URL (Some (lit "http"%string ++ rest)).
Proof.
assert (H : forall r, Config.WS_BASE_URL (Some (lit "http"%string ++ r))
                      = lit "ws"%string ++ r).
{ intros r. unfold Config.WS_BASE_URL.
  change (Config.API_BASE_URL (Some (lit "http"%string ++ r)))
    with (lit "http"%string ++ r).
  apply replace_prefix. }
split; [apply H|]. split.
- change (lit "https://"%string ++ rest)
    with (lit "http"%string ++ (lit "s://"%string ++ rest)).
  rewrite H. reflexivity.
- repeat split.
Qed.

(** X5: a backend URL in which http does not occur (another scheme, no
    scheme, or upper case) is used unchanged as the socket URL. *)
Theorem ws_url_without_http (url : jsstring) :
  url <> [] ->
  includes url (lit "http"%string) = false ->
  Config.API_BASE_URL (Some url) = url /\ Config.WS_BASE_URL (Some url) = url.
Proof.
intros Hne Hno. unfold Config.WS_BASE_URL.
assert (E : Config.API_BASE_URL (Some url) = url).
{ unfold Config.API_BASE_URL, orElse. destruct url; congruence. }
rewrite E. split; [reflexivity|]. now apply replace_no_match.
Qed.

Lemma ws_url_without_http_witness :
  Config.API_BASE_URL (Some (lit "HTTP://example.org"%string))
  = lit "HTTP://example.org"%string /\
  Config.WS_BASE_URL (Some (lit "HTTP://example.org"%string))
  = lit "HTTP://example.org"%string.
Proof.
apply (@ws_url_without_http (lit "HTTP://example.org"%string)).
- discriminate.
- reflexivity.
Defined.

End MoreStrings.

(** ** More on the game board *)

Section MoreBoard.
Import JsString Wire Http GameBoard BoardIO Statements.

Ltac split_matches :=
  repeat match goal with
         | |- context [match ?x with _ => _ end] => destruct x eqn:?
         | |- context [if ?x then _ else _] => destruct x eqn:?
         end.

Lemma handlePlayCard_keeps props st res :
  let st' := fst (handlePlayCard props st res) in
  gameState st' = gameState st /\ hand st' = hand st /\
  loading st' = loading st.
Proof.
unfold handlePlayCard. split_matches; simpl; auto.
Qed.

Lemma handleDrawCard_keeps props st res :
  fst (handleDrawCard props st res) = st.
Proof.
unfold handleDrawCard. split_matches; reflexivity.
Qed.

Lemma runHandler_keeps h props st res :
  let st' := fst (runHandler h props st res) in
  gameState st' = gameState st /\ hand st' = hand st /\
  loading st' = loading st.
Proof.
destruct h; simpl.
- rewrite handleDrawCard_keeps. auto.
- apply handlePlayCard_keeps.
Qed.

Lemma dispatch_keeps_view props st ev res :
  gameState (fst (dispatch props st ev res)) = gameState st /\
  hand (fst (dispatch props st ev res)) = hand st /\
  loading (fst (dispatch props st ev res)) = loading st.
Proof.
unfold dispatch.
destruct (render props st) as [| |b]; simpl; auto.
destruct ev.
- destruct (deck_onClick b); simpl; auto. apply runHandler_keeps.
- destruct (nth_error (cards b) idx); simpl; auto.
- destruct (actions b) as [[| ]|]; simpl; auto.
- destruct (actions b) as [[? ? [|]| ]|]; simpl; auto.
  apply runHandler_keeps.
- destruct (actions b) as [[| ]|]; simpl; auto. apply runHandler_keeps.
Qed.

(** X6: no event on the board changes the stored game state, the hand or
    the loading flag: a card that was played stays in the hand, and a card
    that was drawn does not appear, until the server sends the new
    state. *)
Theorem board_events_keep_view (props : Props) (st : State) (ev : Event)
        (res : FetchResult) :
  gameState (fst (dispatch props st ev res)) = gameState st /\
  hand (fst (dispatch props st ev res)) = hand st /\
  loading (fst (dispatch props st ev res)) = loading st.
Proof.
destruct (dispatch_keeps_view props st ev res) as (Hg & Hh & Hl).
split; [exact Hg|]. split; [exact Hh|exact Hl].
Qed.






Lemma runHandler_counts h props st res :
  let es := snd (runHandler h props st res) in
  requests es <= 1 /\
  alerts es = (if requests es =? 0 then 0
               else if failed res then 1 else 0).
Proof.
destruct h; simpl.
- unfold handleDrawCard. destruct res as [|[|] b]; simpl; auto.
- unfold handlePlayCard.
  destruct (selectedCard st); [|simpl; auto].
  destruct (gameState st); [|simpl; auto].
  destruct res as [|[|] b]; simpl; auto.
Qed.

(** X8: one event on the board sends at most one request, and the user is
    alerted exactly when a request was sent and failed (the fetch rejected
    or the response was not ok): once, and never otherwise. *)
Theorem board_alerts_once_per_failure (props : Props) (st : State)
        (ev : Event) (res : FetchResult) :
  requests (snd (dispatch props st ev res)) <= 1 /\
  alerts (snd (dispatch props st ev res))
  = (if requests (snd (dispatch props st ev res)) =? 0 then 0
     else if failed res then 1 else 0).
Proof.
unfold dispatch.
destruct (render props st) as [| |b]; simpl; auto.
destruct ev.
- destruct (deck_onClick b); simpl; auto. apply runHandler_counts.
- destruct (nth_error (cards b) idx); simpl; auto.
- destruct (actions b) as [[| ]|]; simpl; auto.
- destruct (actions b) as [[? ? [|]| ]|]; simpl; auto.
  apply runHandler_counts.
- destruct (actions b) as [[| ]|]; simpl; auto. apply runHandler_counts.
Qed.

(** The state after a handler ran, by what it sent and how that ended. *)
Lemma runHandler_exact h props st res :
  fst (runHandler h props st res)
  = (if existsb isPlay (snd (runHandler h props st res))
        && negb (failed res)
     then clearSelection st else st) /\
  (existsb isPlay (snd (runHandler h props st res)) = true ->
   selectedCard st <> None).
Proof.
destruct h; simpl.
- unfold handleDrawCard. destruct res as [|[|] b]; simpl;
    split; try reflexivity; discriminate.
- unfold handlePlayCard.
  destruct (selectedCard st) eqn:Hs; [|simpl; split; [reflexivity|]];
    try discriminate.
  destruct (gameState st); [|simpl; split; [reflexivity|discriminate]].
  destruct res as [|[|] b]; simpl; split; try reflexivity; discriminate.
Qed.

(** X9: apart from clicking a card and changing the suit selector, an
    event clears the selection and the declared suit exactly when it sent
    a play request and that request succeeded; in every other case,
    a failed play among them, it leaves the whole board state as it was,
    so the play can be retried as it stands.  A play request is only ever
    sent with a card selected, through one of the two play buttons. *)
Theorem selection_cleared_only_by_accepted_play
        (props : Props) (st : State) (ev : Event) (res : FetchResult) :
  (forall idx, ev <> ClickCard idx) ->
  (forall v, ev <> ChangeSuit v) ->
  fst (dispatch props st ev res)
  = (if existsb isPlay (snd (dispatch props st ev res)) && negb (failed res)
     then clearSelection st else st) /\
  (existsb isPlay (snd (dispatch props st ev res)) && negb (failed res)
   = true ->
   selectedCard (fst (dispatch props st ev res)) = None /\
   declaredSuit (fst (dispatch props st ev res)) = None /\
   selectedCard st <> None /\
   (ev = ClickPlay8 \/ ev = ClickPlayCard)) /\
  (fst (dispatch props st ev res) = st \/
   (failed res = false /\ selectedCard st <> None /\
    (ev = ClickPlay8 \/ ev = ClickPlayCard) /\
    fst (dispatch props st ev res) = clearSelection st)).
Proof.
intros Hc Hs.
assert (Hmain :
  fst (dispatch props st ev res)
  = (if existsb isPlay (snd (dispatch props st ev res)) && negb (failed res)
     then clearSelection st else st) /\
  (existsb isPlay (snd (dispatch props st ev res)) = true ->
   selectedCard st <> None /\ (ev = ClickPlay8 \/ ev = ClickPlayCard))).
{ unfold dispatch.
  destruct (render props st) as [| |b] eqn:Hr; simpl;
    try (split; [reflexivity|discriminate]).
  destruct ev.
  - pose proof (render_board _ _ Hr) as (g & _ & _ & Hdeck & _).
    rewrite Hdeck. destruct (isCurrentPlayer props g); simpl;
      [|split; [reflexivity|discriminate]].
    unfold handleDrawCard. destruct res as [|[|] x]; simpl;
      split; try reflexivity; discriminate.
  - now destruct (Hc idx).
  - now destruct (Hs value).
  - destruct (actions b) as [[? h [|]| ]|]; simpl;
      try (split; [reflexivity|discriminate]).
    destruct (runHandler_exact h props st res) as [E Hn].
    split; [exact E|]. intros H. split; [auto|]. left. reflexivity.
  - destruct (actions b) as [[|h]|]; simpl;
      try (split; [reflexivity|discriminate]).
    destruct (runHandler_exact h props st res) as [E Hn].
    split; [exact E|]. intros H. split; [auto|]. right. reflexivity. }
destruct Hmain as [E Hsel]. split; [exact E|].
destruct (existsb isPlay (snd (dispatch props st ev res))) eqn:Hp;
  simpl in E |- *.
- destruct (Hsel eq_refl) as [Hn Hev].
  destruct (failed res) eqn:Hf; simpl in E |- *.
  + split; [discriminate|]. left. exact E.
  + split.
    * intros _. rewrite E. repeat split; assumption.
    * right. repeat split; assumption.
- split; [discriminate|]. left. exact E.
Qed.

Lemma selection_cleared_only_by_accepted_play_witness :
  fst (dispatch sampleProps sampleBoard ClickPlay8 (Response true None))
  = clearSelection sampleBoard /\
  selectedCard (fst (dispatch sampleProps sampleBoard ClickPlay8
                              (Response true None))) = None /\
  declaredSuit (fst (dispatch sampleProps sampleBoard ClickPlay8
                              (Response true None))) = None /\
  fst (dispatch sampleProps sampleBoard ClickPlay8 NetworkError)
  = sampleBoard.
Proof.
destruct (@selection_cleared_only_by_accepted_play sampleProps sampleBoard
            ClickPlay8 (Response true None)) as (E & Hc & _);
  try discriminate.
destruct (@selection_cleared_only_by_accepted_play sampleProps sampleBoard
            ClickPlay8 NetworkError) as (E' & _); try discriminate.
split; [exact E|]. split; [apply Hc; reflexivity|].
split; [apply Hc; reflexivity|exact E'].
Defined.

Lemma cardsEqual_refl (c : Card) : cardsEqual (Some c) (Some c) = true.
Proof. simpl. now rewrite !eqb_refl. Qed.

(** X10: a click on a hand card toggles it, for any viewer and whoever's
    turn it is: afterwards the card is selected exactly if it was not
    selected before (cards compared by rank and suit).  The click sends
    nothing and leaves the declared suit as it was. *)
Theorem card_click_toggles (props : Props) (st : State) (g : View)
        (idx : nat) (c : Card) (res : FetchResult) :
  loading st = false -> gameState st = Some g ->
  nth_error (hand st) idx = Some c ->
  cardsEqual (selectedCard (fst (dispatch props st (ClickCard idx) res)))
             (Some c)
  = negb (cardsEqual (selectedCard st) (Some c)) /\
  declaredSuit (fst (dispatch props st (ClickCard idx) res))
  = declaredSuit st /\
  snd (dispatch props st (ClickCard idx) res) = [].
Proof.
intros Hl Hg Hn. unfold dispatch, render. rewrite Hl, Hg.
cbn [cards]. rewrite nth_error_map, Hn. cbn [option_map face fst snd].
unfold toggleSelected. cbn [selectedCard declaredSuit].
destruct (cardsEqual (selectedCard st) (Some c)) eqn:E.
- repeat split.
- rewrite cardsEqual_refl. repeat split.
Qed.

Lemma card_click_toggles_witness :
  cardsEqual (selectedCard (fst (dispatch sampleProps sampleBoard
                                          (ClickCard 0) NetworkError)))
             (Some sampleEight)
  = negb (cardsEqual (selectedCard sampleBoard) (Some sampleEight)) /\
  declaredSuit (fst (dispatch sampleProps sampleBoard (ClickCard 0)
                              NetworkError))
  = declaredSuit sampleBoard /\
  snd (dispatch sampleProps sampleBoard (ClickCard 0) NetworkError) = [].
Proof.
apply (@card_click_toggles sampleProps sampleBoard sampleView 0 sampleEight
         NetworkError); reflexivity.
Defined.

(** *** What the board holds after any run of inputs *)

Lemma handSource_is_handOf (d : Payload) :
  handSourceOf d = handOf (boardStateOf d).
Proof.
unfold handSourceOf, handOf, boardStateOf.
destruct (player_state d) as [v|]; [|reflexivity].
destruct (your_hand v); reflexivity.
Qed.

Lemma step_settled props st i : settled st -> settled (step props st i).
Proof.
intros [H1 H2]. destruct i as [res|u|ev res]; simpl.
- unfold fetchGameState. destruct res as [|ok [data|]]; simpl;
    try (split; assumption).
  split; simpl; [discriminate|]. intros g [= <-]. reflexivity.
- unfold onmessage. split; simpl; [discriminate|].
  intros g [= <-]. now rewrite handSource_is_handOf.
- destruct (dispatch_keeps_view props st ev res) as (Eg & Eh & El).
  split.
  + rewrite El, Eg. assumption.
  + rewrite Eg, Eh. assumption.
Qed.

Lemma run_settled props st inputs :
  settled st -> settled (run props st inputs).
Proof.
revert st. induction inputs as [|i inputs IH]; intros st H; simpl;
  [assumption|].
apply IH, step_settled, H.
Qed.

Lemma initial_settled : settled initialState.
Proof. split; simpl; [discriminate|]. intros g H. discriminate. Qed.

(** X11: whatever fetch results, socket messages and user events reach a
    freshly mounted board, in any order, it renders the loading screen or
    the board: the screen 'Error loading game' is never shown, because the
    loading flag is only cleared together with storing a game state. *)
Theorem error_screen_unreachable (props : Props) (inputs : list Input) :
  render props (run props initialState inputs) <> ErrorScreen.
Proof.
destruct (run_settled props inputs initial_settled) as [H _].
unfold render.
destruct (loading (run props initialState inputs)); [discriminate|].
destruct (gameState (run props initialState inputs)); [discriminate|].
now destruct H.
Qed.

(** X12: after any run of fetch results, messages and user events, the
    hand on the board is the parsed [your_hand] of the stored game state
    (empty when that state has none): hand and game state always come
    from the same object, the one last received. *)
Theorem hand_follows_game_state (props : Props) (inputs : list Input)
        (g : View) :
  gameState (run props initialState inputs) = Some g ->
  hand (run props initialState inputs) = parseHand (handOf g).
Proof.
destruct (run_settled props inputs initial_settled) as [_ H]. apply H.
Qed.

Lemma hand_follows_game_state_witness :
  hand (run sampleProps initialState
            [Fetched NetworkError; Message Cases.emptyHandedUpdate;
             User (ClickCard 0) NetworkError])
  = parseHand (handOf Cases.emptyHanded).
Proof.
apply (@hand_follows_game_state sampleProps
         [Fetched NetworkError; Message Cases.emptyHandedUpdate;
          User (ClickCard 0) NetworkError] Cases.emptyHanded).
reflexivity.
Defined.

Lemma step_keeps_selection props st i :
  isUser i = false ->
  selectedCard (step props st i) = selectedCard st /\
  declaredSuit (step props st i) = declaredSuit st.
Proof.
destruct i as [res|u|ev res]; simpl; intros H; try discriminate.
- unfold fetchGameState. destruct res as [|ok [data|]]; simpl; auto.
- auto.
Qed.

Lemma run_keeps_selection props st inputs :
  forallb (fun i => negb (isUser i)) inputs = true ->
  selectedCard (run props st inputs) = selectedCard st /\
  declaredSuit (run props st inputs) = declaredSuit st.
Proof.
revert st. induction inputs as [|i inputs IH]; intros st H; simpl; auto.
simpl in H. apply andb_true_iff in H as [Hi H].
apply negb_true_iff in Hi.
destruct (step_keeps_selection props st i Hi) as [E1 E2].
destruct (IH (step props st i) H) as [E3 E4]. split; congruence.
Qed.

(** X13: fetch results and socket messages never touch the selection or
    the declared suit, so a card selected earlier stays selected when the
    new hand no longer holds it; if it is then the viewer's turn, Play Card
    posts that card. *)
Theorem stale_selection_is_played (props : Props) (st : State)
        (inputs : list Input) (sel : Card) (g : View) (res : FetchResult) :
  forallb (fun i => negb (isUser i)) inputs = true ->
  selectedCard st = Some sel ->
  rank sel <> lit "8"%string ->
  loading (run props st inputs) = false ->
  gameState (run props st inputs) = Some g ->
  isCurrentPlayer props g = true ->
  selectedCard (run props st inputs) = Some sel /\
  declaredSuit (run props st inputs) = declaredSuit st /\
  exists rest,
    snd (dispatch props (run props st inputs) ClickPlayCard res)
    = Fetch (PostPlay (gameId props) (playerId props)
                      {| card := rank sel ++ suit sel;
                         declared_suit := None |}) :: rest.
Proof.
intros Hin Hs H8 Hl Hg Hc.
destruct (run_keeps_selection props st inputs Hin) as [E1 E2].
rewrite Hs in E1. split; [assumption|]. split; [assumption|].
apply eqb_neq in H8.
unfold dispatch, render. rewrite Hl, Hg. cbn [actions].
rewrite Hc, E1, H8. cbn [runHandler].
unfold handlePlayCard. rewrite E1, Hg. unfold playBody. rewrite H8.
destruct res as [|[|] b]; eexists; reflexivity.
Qed.

Lemma stale_selection_is_played_witness :
  selectedCard (run sampleProps Cases.boardWithSeven
                    [Message Cases.emptyHandedUpdate])
  = Some Cases.sevenOfClubs /\
  declaredSuit (run sampleProps Cases.boardWithSeven
                    [Message Cases.emptyHandedUpdate])
  = declaredSuit Cases.boardWithSeven /\
  exists rest,
    snd (dispatch sampleProps
                  (run sampleProps Cases.boardWithSeven
                       [Message Cases.emptyHandedUpdate])
                  ClickPlayCard NetworkError)
    = Fetch (PostPlay (gameId sampleProps) (playerId sampleProps)
                      {| card := rank Cases.sevenOfClubs
                                 ++ suit Cases.sevenOfClubs;
                         declared_suit := None |}) :: rest.
Proof.
apply (@stale_selection_is_played sampleProps Cases.boardWithSeven
         [Message Cases.emptyHandedUpdate] Cases.sevenOfClubs
         Cases.emptyHanded NetworkError);
  try reflexivity.
discriminate.
Defined.

(** X14: the notice 'Waiting for ...' is shown only to a viewer who has
    no controls (no draw handler on the deck, no action buttons) and never
    once a winner is set; while no winner is set it is shown exactly when
    the deck has no handler. *)
Theorem waiting_notice_means_no_controls
        (props : Props) (st : State) (b : Board) (g : View) :
  render props st = BoardScreen b ->
  gameState st = Some g ->
  (waitingShown props g = true ->
   deck_onClick b = None /\ actions b = None) /\
  (gameOverShown g = true -> waitingShown props g = false) /\
  (gameOverShown g = false ->
   (waitingShown props g = true <-> deck_onClick b = None)).
Proof.
intros Hr Hg.
apply render_board in Hr as (g' & _ & Hg' & Hdeck & Hact).
assert (g' = g) by congruence. subst g'.
unfold waitingShown, gameOverShown. rewrite Hdeck, Hact.
destruct (isCurrentPlayer props g), (truthy (winner_id g)); simpl;
  repeat split; intros; try discriminate; auto.
Qed.

Lemma waiting_notice_means_no_controls_witness :
  exists b, render sampleProps Cases.boardOthersTurn = BoardScreen b /\
  (waitingShown sampleProps Cases.othersTurn = true ->
   deck_onClick b = None /\ actions b = None) /\
  (gameOverShown Cases.othersTurn = true ->
   waitingShown sampleProps Cases.othersTurn = false) /\
  (gameOverShown Cases.othersTurn = false ->
   (waitingShown sampleProps Cases.othersTurn = true <->
    deck_onClick b = None)).
Proof.
eexists. split; [reflexivity|].
apply (@waiting_notice_means_no_controls sampleProps Cases.boardOthersTurn);
  reflexivity.
Defined.

(** X15: the opponent panel never shows the viewer: the player it shows,
    if any, is the first listed player whose id is not the viewer's, and it
    is absent exactly when the state lists no players or every listed
    player has the viewer's id. *)
Theorem other_player_is_not_viewer (props : Props) (g : View) :
  (forall p, otherPlayer props g = Some p ->
     exists before after,
       players g = Some (before ++ p :: after) /\
       id p <> playerId props /\
       forall q, In q before -> id q = playerId props) /\
  (otherPlayer props g = None <->
   players g = None \/
   exists ps, players g = Some ps /\
              forall q, In q ps -> id q = playerId props).
Proof.
unfold otherPlayer. destruct (players g) as [ps|].
- assert (Hfirst : forall p,
            find (fun p => negb (eqb (id p) (playerId props))) ps = Some p ->
            exists before after, ps = before ++ p :: after /\
              id p <> playerId props /\
              forall q, In q before -> id q = playerId props).
  { induction ps as [|x ps IH]; simpl; intros p H; [discriminate|].
    destruct (eqb (id x) (playerId props)) eqn:E; simpl in H.
    - destruct (IH p H) as (bf & af & -> & Hne & Hall).
      exists (x :: bf), af. split; [reflexivity|]. split; [assumption|].
      intros q [<-|Hq]; [now apply eqb_eq|auto].
    - injection H as <-. exists [], ps. split; [reflexivity|].
      split; [now apply eqb_neq|]. intros q []. }
  split.
  + intros p H. destruct (Hfirst p H) as (bf & af & -> & Hne & Hall).
    exists bf, af. auto.
  + split.
    * intros H. right. exists ps. split; [reflexivity|].
      intros q Hq. pose proof (find_none _ _ H q Hq) as Hn.
      apply negb_false_iff in Hn. now apply eqb_eq.
    * intros [H|(ps' & [= <-] & Hall)]; [discriminate|].
      destruct (find (fun p => negb (eqb (id p) (playerId props))) ps)
        as [p|] eqn:Hf; [|reflexivity].
      apply find_some in Hf as [Hin Hn]. apply negb_true_iff in Hn.
      apply eqb_neq in Hn. now destruct Hn; apply Hall.
- split; [intros p H; discriminate|]. split; auto.
Qed.

Lemma other_player_is_not_viewer_witness :
  exists before after,
    players Cases.othersTurn
    = Some (before ++ seat "p2"%string :: after) /\
    id (seat "p2"%string) <> playerId sampleProps /\
    forall q, In q before -> id q = playerId sampleProps.
Proof.
apply (other_player_is_not_viewer sampleProps Cases.othersTurn).
reflexivity.
Defined.

End MoreBoard.

(** ** More on the waiting room, the app and the lobby *)

Section MoreRooms.
Import JsString Wire Http Statements.

Lemma room_step_loading gid pid st i :
  WaitingRoom.loading (RoomIO.step gid pid st i)
  = WaitingRoom.loading st && negb (RoomIO.fetchSucceeded i).
Proof.
destruct i as [[ps|]|u]; simpl.
- now rewrite andb_false_r.
- now rewrite andb_true_r.
- rewrite andb_true_r. unfold WaitingRoom.onmessage.
  destruct (players _); reflexivity.
Qed.

Lemma room_run_loading gid pid st inputs :
  WaitingRoom.loading (RoomIO.run gid pid st inputs)
  = WaitingRoom.loading st && negb (existsb RoomIO.fetchSucceeded inputs).
Proof.
revert st. induction inputs as [|i inputs IH]; intros st; simpl.
- now rewrite andb_true_r.
- rewrite IH, room_step_loading, negb_orb. now rewrite andb_assoc.
Qed.

(** X16: the waiting room leaves its loading screen exactly when one of
    its state fetches has succeeded.  Socket messages alone never end it,
    even when they carry the player list, and failed fetches do not
    either. *)
Theorem room_loads_only_by_fetch (gid pid : jsstring)
        (inputs : list RoomIO.Input) :
  WaitingRoom.loading (RoomIO.run gid pid WaitingRoom.initialState inputs)
  = negb (existsb RoomIO.fetchSucceeded inputs) /\
  (WaitingRoom.render (RoomIO.run gid pid WaitingRoom.initialState inputs)
   = WaitingRoom.LoadingScreen <->
   existsb RoomIO.fetchSucceeded inputs = false).
Proof.
pose proof (room_run_loading gid pid WaitingRoom.initialState inputs) as H.
simpl in H. split; [assumption|].
unfold WaitingRoom.render. rewrite H.
destruct (existsb RoomIO.fetchSucceeded inputs); simpl;
  split; congruence.
Qed.

(** X17: in the rendered room the notice 'Waiting for another player' is
    shown exactly when fewer than two players are listed, never together
    with the Start Game button; with more than two players listed neither
    is shown. *)
Theorem room_notice_and_button (st : WaitingRoom.State)
        (r : WaitingRoom.Room) :
  WaitingRoom.render st = WaitingRoom.RoomScreen r ->
  WaitingRoom.listed r = WaitingRoom.players st /\
  (WaitingRoom.waiting_notice r = true <->
   length (WaitingRoom.players st) < 2) /\
  (WaitingRoom.waiting_notice r = true ->
   WaitingRoom.start_button r = None) /\
  (2 < length (WaitingRoom.players st) ->
   WaitingRoom.waiting_notice r = false /\
   WaitingRoom.start_button r = None).
Proof.
unfold WaitingRoom.render, WaitingRoom.isReady.
destruct (WaitingRoom.loading st); [discriminate|].
intros [= <-]. simpl.
split; [reflexivity|]. split; [apply Nat.ltb_lt|]. split.
- intros H. apply Nat.ltb_lt in H.
  destruct (length (WaitingRoom.players st) =? 2) eqn:E; [|reflexivity].
  apply Nat.eqb_eq in E. lia.
- intros H. split.
  + apply Nat.ltb_ge. lia.
  + destruct (length (WaitingRoom.players st) =? 2) eqn:E; [|reflexivity].
    apply Nat.eqb_eq in E. lia.
Qed.

Lemma room_notice_and_button_witness :
  exists r, WaitingRoom.render Cases.roomOfThree = WaitingRoom.RoomScreen r /\
  WaitingRoom.listed r = WaitingRoom.players Cases.roomOfThree /\
  (WaitingRoom.waiting_notice r = true <->
   length (WaitingRoom.players Cases.roomOfThree) < 2) /\
  (WaitingRoom.waiting_notice r = true ->
   WaitingRoom.start_button r = None) /\
  (2 < length (WaitingRoom.players Cases.roomOfThree) ->
   WaitingRoom.waiting_notice r = false /\
   WaitingRoom.start_button r = None).
Proof.
eexists. split; [reflexivity|].
apply (@room_notice_and_button Cases.roomOfThree). reflexivity.
Defined.

(** *** Starting and joining *)

Lemma tooFew_iff body :
  App.tooFewPlayers body = false <->
  exists ps, players (view body) = Some ps /\ 2 <= length ps.
Proof.
unfold App.tooFewPlayers. destruct (players (view body)) as [ps|].
- rewrite Nat.ltb_ge. split.
  + intros H. exists ps. auto.
  + intros (ps' & [= <-] & H). exact H.
- split; [discriminate|]. intros (ps & H & _). discriminate.
Qed.

(** X18: [handleStartGame] moves the app to the playing phase exactly when
    the start goes through: the state read succeeded with at least two
    players listed and the start request succeeded.  In every other case
    the app state is left exactly as it was. *)
Theorem start_moves_to_playing_iff (gs : App.GameState)
        (stateResp startResp : FetchResult) :
  (Cases.startAccepted stateResp startResp /\
   fst (App.handleStartGame (Some gs) stateResp startResp)
   = Some (App.setPhase gs App.playing) /\
   App.render (fst (App.handleStartGame (Some gs) stateResp startResp))
   = App.GameBoardPage) \/
  (~ Cases.startAccepted stateResp startResp /\
   fst (App.handleStartGame (Some gs) stateResp startResp) = Some gs).
Proof.
unfold Cases.startAccepted, App.handleStartGame.
destruct stateResp as [|[|] [body|]];
  try (right; split; [intros (b & ps & o & H & _); discriminate
                     |reflexivity]).
destruct (App.tooFewPlayers body) eqn:Ht.
- right. split; [|reflexivity].
  intros (b & ps & o & [= <-] & Hp & Hl & _).
  assert (App.tooFewPlayers body = false)
    by (apply tooFew_iff; exists ps; auto).
  congruence.
- apply tooFew_iff in Ht as (ps & Hp & Hl).
  destruct startResp as [|[|] [b|]];
    try (right; split;
         [intros (b' & ps' & o & _ & _ & _ & H); discriminate
         |reflexivity]);
    left; (split; [exists body, ps; eexists; auto|split; reflexivity]).
Qed.

(** X19: a run of [handleStartGame] on a joined app always begins with the
    state read, posts at most one start request, and alerts the user
    exactly once unless the start goes through, in which case it does not
    alert. *)
Theorem start_failure_alerts_once (gs : App.GameState)
        (stateResp startResp : FetchResult) :
  hd_error (snd (App.handleStartGame (Some gs) stateResp startResp))
  = Some (Fetch (GetState (App.gameId gs) (App.playerId gs))) /\
  length (filter isStart
            (snd (App.handleStartGame (Some gs) stateResp startResp))) <= 1 /\
  (Cases.startAccepted stateResp startResp ->
   BoardIO.alerts (snd (App.handleStartGame (Some gs) stateResp startResp))
   = 0) /\
  (~ Cases.startAccepted stateResp startResp ->
   BoardIO.alerts (snd (App.handleStartGame (Some gs) stateResp startResp))
   = 1).
Proof.
unfold Cases.startAccepted, App.handleStartGame.
destruct stateResp as [|[|] [body|]];
  try (simpl; repeat split; auto;
       intros (b & ps & o & H & _); discriminate).
destruct (App.tooFewPlayers body) eqn:Ht.
- simpl. repeat split; auto.
  intros (b & ps & o & [= <-] & Hp & Hl & _).
  assert (App.tooFewPlayers body = false)
    by (apply tooFew_iff; exists ps; auto).
  congruence.
- apply tooFew_iff in Ht as (ps & Hp & Hl).
  destruct startResp as [|[|] [b|]]; simpl; repeat split; auto;
    try (intros (b' & ps' & o & _ & _ & _ & H); discriminate);
    intros H; exfalso; apply H; exists body, ps; eexists; auto.
Qed.

Lemma start_failure_alerts_once_witness :
  BoardIO.alerts (snd (App.handleStartGame (Some sampleApp)
                                           Cases.twoPlayersRead
                                           (Response true None))) = 0 /\
  BoardIO.alerts (snd (App.handleStartGame (Some sampleApp)
                                           onePlayerRead
                                           (Response true None))) = 1.
Proof.
split.
- apply (start_failure_alerts_once sampleApp Cases.twoPlayersRead
                                   (Response true None)).
  eexists _, _, _. repeat split. simpl. lia.
- apply (start_failure_alerts_once sampleApp onePlayerRead
                                   (Response true None)).
  intros (b & ps & o & [= <-] & [= <-] & Hl & _). simpl in Hl. lia.
Defined.

(** X20: [handleJoinGame] does not read the status of the join response:
    whenever the body parses the app enters the waiting phase, with the
    body's [player_id] as the player id, present or not, and a rejected
    join looks the same as an accepted one.  When the fetch or the parse
    fails nothing is stored; in no case is the user alerted. *)
Theorem join_ignores_status (gameId playerName : jsstring) :
  (forall ok player_id,
      fst (Join.handleJoinGame gameId playerName (Some (ok, player_id)))
      = Some {| Join.gameId := gameId; Join.playerId := player_id;
                Join.playerName := playerName;
                Join.phase := App.waiting |}) /\
  (forall player_id,
      Join.handleJoinGame gameId playerName (Some (false, player_id))
      = Join.handleJoinGame gameId playerName (Some (true, player_id))) /\
  (forall ok e,
      fst (Join.handleJoinGame gameId playerName (Some (ok, None))) = Some e ->
      Join.toGameState e = None) /\
  fst (Join.handleJoinGame gameId playerName None) = None /\
  (forall res,
      BoardIO.alerts (snd (Join.handleJoinGame gameId playerName res)) = 0).
Proof.
repeat split.
- intros ok e [= <-]. reflexivity.
- intros [[ok pid]|]; reflexivity.
Qed.

(** *** The lobby *)

Lemma handleJoin_calls st g n :
  In (Lobby.OnJoinGame g n) (Lobby.handleJoin st) ->
  g = Some (Lobby.gameId st) /\ n = Lobby.playerName st /\
  Lobby.gameId st <> [] /\ Lobby.playerName st <> [].
Proof.
unfold Lobby.handleJoin.
destruct (Lobby.gameId st) as [|c r]; [intros []|].
destruct (Lobby.playerName st) as [|d q]; [intros []|].
simpl. intros [[= <- <-]|[]]. repeat split; discriminate.
Qed.

(** X21: every join the lobby asks for carries a non-empty player name.
    Through the Join button or the Enter key it is the typed name with the
    typed, non-empty game id; through Create Game it is the creator's name
    with whatever [game_id] the create response carried.  No create request
    is sent while the creator's name is empty. *)
Theorem lobby_joins_are_guarded (st : Lobby.State) (ev : Lobby.Event)
        (res : Lobby.CreateResult) :
  (forall g n,
      In (Lobby.OnJoinGame g n) (snd (Lobby.dispatch st ev res)) ->
      n <> [] /\
      ((ev <> Lobby.ClickCreate /\ g = Some (Lobby.gameId st) /\
        Lobby.gameId st <> [] /\ n = Lobby.playerName st) \/
       (ev = Lobby.ClickCreate /\ res = Some g /\
        n = Lobby.creatorName st))) /\
  (In Lobby.PostCreate (snd (Lobby.dispatch st ev res)) ->
   ev = Lobby.ClickCreate /\ Lobby.creatorName st <> []).
Proof.
split.
- intros g n. destruct ev; simpl; try (intros []).
  + unfold Lobby.handleCreateGame.
    destruct (Lobby.creatorName st) as [|c r] eqn:Ec; simpl.
    * intros [H|[]]. discriminate.
    * destruct res as [gid|]; simpl.
      -- intros [H|[[= <- <-]|[]]]; [discriminate|].
         split; [discriminate|]. right. auto.
      -- intros [H|[H|[]]]; discriminate.
  + destruct (Lobby.joinDisabled st); [intros []|]. simpl.
    intros H. apply handleJoin_calls in H as (-> & -> & Hg & Hn).
    split; [assumption|]. left. repeat split; auto. discriminate.
  + destruct (eqb key (lit "Enter"%string)); [|intros []]. simpl.
    intros H. apply handleJoin_calls in H as (-> & -> & Hg & Hn).
    split; [assumption|]. left. repeat split; auto. discriminate.
- destruct ev; simpl; try (intros []).
  + unfold Lobby.handleCreateGame.
    destruct (Lobby.creatorName st) as [|c r]; simpl.
    * intros [H|[]]. discriminate.
    * intros _. split; [reflexivity|discriminate].
  + destruct (Lobby.joinDisabled st); [intros []|]. simpl.
    unfold Lobby.handleJoin.
    destruct (truthy _ && truthy _); simpl; [intros [H|[]]|intros []].
    discriminate.
  + destruct (eqb key (lit "Enter"%string)); [|intros []]. simpl.
    unfold Lobby.handleJoin.
    destruct (truthy _ && truthy _); simpl; [intros [H|[]]|intros []].
    discriminate.
Qed.

Lemma lobby_joins_are_guarded_witness :
  lit "Bob"%string <> [] /\
  ((Lobby.ClickJoin <> Lobby.ClickCreate /\
    Some (lit "g1"%string) = Some (Lobby.gameId Cases.lobbyReady) /\
    Lobby.gameId Cases.lobbyReady <> [] /\
    lit "Bob"%string = Lobby.playerName Cases.lobbyReady) \/
   (Lobby.ClickJoin = Lobby.ClickCreate /\
    None = Some (Some (lit "g1"%string)) /\
    lit "Bob"%string = Lobby.creatorName Cases.lobbyReady)).
Proof.
apply (lobby_joins_are_guarded Cases.lobbyReady Lobby.ClickJoin None).
simpl. left. reflexivity.
Defined.

(** X22: in the name field the Enter key does exactly what a click on the
    Join Game button does, in every state of the lobby, also while the
    button is disabled (nothing then); any other key does nothing. *)
Theorem enter_key_is_join_click (st : Lobby.State)
        (res : Lobby.CreateResult) :
  Lobby.dispatch st (Lobby.KeyPressPlayerName (lit "Enter"%string)) res
  = Lobby.dispatch st Lobby.ClickJoin res /\
  (Lobby.joinDisabled st = true ->
   Lobby.dispatch st Lobby.ClickJoin res = (st, [])) /\
  (forall key, key <> lit "Enter"%string ->
     Lobby.dispatch st (Lobby.KeyPressPlayerName key) res = (st, [])).
Proof.
split; [|split].
- simpl. unfold Lobby.joinDisabled, Lobby.handleJoin.
  destruct (truthy (Some (Lobby.gameId st)));
    destruct (truthy (Some (Lobby.playerName st))); reflexivity.
- intros H. simpl. now rewrite H.
- intros key H. apply eqb_neq in H. simpl. now rewrite H.
Qed.

Lemma enter_key_is_join_click_witness :
  Lobby.dispatch Lobby.initialState
                 (Lobby.KeyPressPlayerName (lit "Enter"%string)) None
  = Lobby.dispatch Lobby.initialState Lobby.ClickJoin None /\
  Lobby.dispatch Lobby.initialState Lobby.ClickJoin None
  = (Lobby.initialState, []) /\
  Lobby.dispatch Lobby.initialState
                 (Lobby.KeyPressPlayerName (lit "a"%string)) None
  = (Lobby.initialState, []).
Proof.
destruct (enter_key_is_join_click Lobby.initialState None) as (H1 & H2 & H3).
split; [exact H1|]. split.
- apply H2. reflexivity.
- apply H3. discriminate.
Defined.

End MoreRooms.
